(** * streamdeck-github-action-status: a shallow embedding and its properties

    The development follows the TypeScript sources:
    - [src/types.ts]       the records exchanged between the modules,
    - [src/github-api.ts]  [fetchWorkflowStatus], [getWorkflowRuns], [mapGitHubStatus],
    - [src/plugin.ts]      the [StreamDeckPlugin] class (session map, timers, key
                           handling, display updates).
    A second version of the plugin in the repository renders the image of a status
    itself instead of reading it from a cache; its handlers are the same, and the
    model follows [src/plugin.ts].

    Conventions of the embedding.
    - A TypeScript [string] is a [string]; an optional or nullable field is an
      [option]; a [number] that the program only uses as an integer (HTTP status,
      milliseconds, seconds, counters) is a [Z].
    - JavaScript truthiness is written out where the source relies on it
      ([truthy], [js_or], [js_or_num]).
    - A rejected promise or a thrown value is the left injection of [Settled];
      [try_catch] is the [try { ... } catch (error) { ... }] block.
    - The Node runtime objects the plugin talks to are explicit state: the table of
      live [setInterval] timers, the log of HTTPS requests issued, the list of
      suspended [refreshStatus] calls, and the frames written to the web socket. *)

From Stdlib Require Import ZArith String List DecimalString.
From stdpp Require Import gmap strings list.

Local Open Scope string_scope.
Local Open Scope Z_scope.

(** ** JavaScript helpers *)

Module JS.

(** [!!s] for a string: only the empty string is falsy. *)
Definition truthy (s : string) : bool := negb (String.eqb s "").

(** Truthiness of an optional string ([undefined] is falsy). *)
Definition truthy_opt (s : option string) : bool :=
  match s with
  | Some s => truthy s
  | None => false
  end.

(** [a || b] on optional strings with a string default. *)
Definition js_or (a : option string) (b : string) : string :=
  match a with
  | Some s => if truthy s then s else b
  | None => b
  end.

(** [a || b] on optional numbers: [undefined] and [0] are falsy. *)
Definition js_or_num (a : option Z) (b : Z) : Z :=
  match a with
  | Some n => if n =? 0 then b else n
  | None => b
  end.

(** Template-literal rendering [`${n}`] of an integer. *)
Definition toString (n : Z) : string := NilZero.string_of_int (Z.to_int n).

(** A thrown value: an [Error] instance carrying its [message], or anything else. *)
Inductive Thrown : Type :=
| ErrorObject (message : string)
| OtherValue.

(** A settled promise (or a terminated synchronous block): rejected/thrown on
    the left, resolved/returned on the right. *)
Definition Settled (A : Type) : Type := (Thrown + A)%type.

Definition resolve {A} (a : A) : Settled A := inr a.
Definition reject {A} (e : Thrown) : Settled A := inl e.

(** [const x = await p; k x] inside an [async] body. *)
Definition await {A B} (p : Settled A) (k : A -> Settled B) : Settled B :=
  match p with
  | inl e => inl e
  | inr a => k a
  end.

(** [try { body } catch (error) { handler error }]. *)
Definition try_catch {A} (body : Settled A) (handler : Thrown -> Settled A) : Settled A :=
  match body with
  | inl e => handler e
  | inr a => inr a
  end.

End JS.

(** ** src/types.ts *)

Module Types.

Record ActionSettings : Type := {
  githubToken : string;
  owner : string;
  repo : string;
  workflow : option string;
  (** Declared [number]; [None] is a settings object without the key, which
      [startRefreshTimer] covers with [|| 60]. *)
  refreshInterval : option Z
}.

Inductive WorkflowStatus : Type := success | failure | pending | unknown.

#[export] Instance WorkflowStatus_eq_dec : EqDecision WorkflowStatus.
Proof. solve_decision. Defined.

(** [WorkflowRun]; the fields [id], [name], [status] carry the prefix [run_]. *)
Record WorkflowRun : Type := {
  run_id : Z;
  run_name : string;
  run_status : string;
  conclusion : option string;
  html_url : string;
  created_at : string;
  updated_at : string;
  head_branch : string;
  head_sha : string
}.

Record GitHubActionsResponse : Type := {
  total_count : Z;
  workflow_runs : list WorkflowRun
}.

(** [WorkflowStatusResult]; the fields carry the prefix [res_]. *)
Record WorkflowStatusResult : Type := {
  res_status : WorkflowStatus;
  res_name : string;
  res_url : string;
  res_branch : string;
  res_updatedAt : option string;
  res_error : option string
}.

(** [ActionInstance]; a timer handle ([ReturnType<typeof setInterval>]) is the
    index the runtime gave the timer, and every handle is truthy. *)
Record ActionInstance : Type := {
  context : string;
  settings : ActionSettings;
  refreshTimer : option nat;
  keyDownTime : option Z
}.

End Types.

(** ** src/github-api.ts *)

Module GithubApi.
Import JS Types.

(** [https.RequestOptions] as [getWorkflowRuns] fills it. *)
Record RequestOptions : Type := {
  hostname : string;
  port : Z;
  path : string;
  method : string;
  headers : list (string * string)
}.

(** What the request leads to: the first of the three callbacks that settles
    the promise. *)
Inductive HttpOutcome : Type :=
| ResponseEnd (statusCode : Z) (data : string)
| RequestError (message : string)
| RequestTimeout.

Definition mapGitHubStatus (status : string) (conclusion : option string) : WorkflowStatus :=
  if String.eqb status "completed" then
    match conclusion with
    | Some c =>
        if String.eqb c "success" then success
        else if String.eqb c "failure" then failure
        else if String.eqb c "cancelled" then failure
        else if String.eqb c "timed_out" then failure
        else unknown
    | None => unknown
    end
  else if String.eqb status "in_progress" || String.eqb status "queued"
          || String.eqb status "pending" || String.eqb status "waiting" then pending
  else unknown.

Definition actions_url (owner repo : string) : string :=
  "https://github.com/" ++ owner ++ "/" ++ repo ++ "/actions".

Definition request_options (token owner repo : string) (workflow : option string)
  : RequestOptions :=
  let path := "/repos/" ++ owner ++ "/" ++ repo ++ "/actions/runs?per_page=1" in
  let path :=
    match workflow with
    | Some w =>
        if truthy w
        then "/repos/" ++ owner ++ "/" ++ repo ++ "/actions/workflows/" ++ w ++ "/runs?per_page=1"
        else path
    | None => path
    end in
  {| hostname := "api.github.com";
     port := 443;
     path := path;
     method := "GET";
     headers := [("Authorization", "Bearer " ++ token);
                 ("Accept", "application/vnd.github.v3+json");
                 ("User-Agent", "StreamDeck-GitHub-Action-Status")] |}.

Section WithRuntime.

(** [JSON.parse(data) as GitHubActionsResponse]: [None] when it throws. *)
Variable JSON_parse : string -> option GitHubActionsResponse.

(** [https.request]: the answer of the network to one request. *)
Variable https_request : RequestOptions -> HttpOutcome.

Definition getWorkflowRuns (token owner repo : string) (workflow : option string)
  : Settled GitHubActionsResponse :=
  let options := request_options token owner repo workflow in
  match https_request options with
  | ResponseEnd statusCode data =>
      if statusCode =? 200 then
        match JSON_parse data with
        | Some parsed => resolve parsed
        | None => reject (ErrorObject "Failed to parse GitHub response")
        end
      else if statusCode =? 401 then reject (ErrorObject "Invalid GitHub token")
      else if statusCode =? 404 then reject (ErrorObject "Repository or workflow not found")
      else reject (ErrorObject ("GitHub API error: " ++ toString statusCode))
  | RequestError message => reject (ErrorObject ("Network error: " ++ message))
  | RequestTimeout => reject (ErrorObject "Request timeout")
  end.

Definition fetchWorkflowStatus (token owner repo : string) (workflow : option string)
  : Settled WorkflowStatusResult :=
  try_catch
    (await (getWorkflowRuns token owner repo workflow) (fun runs =>
       if (total_count runs =? 0) || (Z.of_nat (length (workflow_runs runs)) =? 0) then
         resolve {| res_status := unknown;
                    res_name := js_or workflow "No runs";
                    res_url := actions_url owner repo;
                    res_branch := "";
                    res_updatedAt := None;
                    res_error := Some "No workflow runs found" |}
       else
         match workflow_runs runs with
         | latestRun :: _ =>
             let status := mapGitHubStatus (run_status latestRun) (conclusion latestRun) in
             resolve {| res_status := status;
                        res_name := run_name latestRun;
                        res_url := html_url latestRun;
                        res_branch := head_branch latestRun;
                        res_updatedAt := None;
                        res_error := None |}
         | [] =>
             (* [latestRun] would be [undefined] and [latestRun.status] a TypeError;
                the guard above excludes this case *)
             reject (ErrorObject "Cannot read properties of undefined (reading 'status')")
         end))
    (fun error =>
       let errorMessage :=
         match error with
         | ErrorObject message => message
         | OtherValue => "Unknown error"
         end in
       resolve {| res_status := unknown;
                  res_name := "Error";
                  res_url := actions_url owner repo;
                  res_branch := "";
                  res_updatedAt := None;
                  res_error := Some errorMessage |}).

End WithRuntime.

End GithubApi.

(** ** src/plugin.ts *)

Module Plugin.
Import JS Types GithubApi.

Definition LONG_PRESS_THRESHOLD : Z := 500.

(** [WebSocket.readyState]. *)
Inductive ReadyState : Type := CONNECTING | OPEN | CLOSING | CLOSED.

(** The objects handed to [send], which writes them as JSON frames. *)
Inductive Frame : Type :=
| register (event uuid : string)
| setImage (context image : string) (target : Z)
| setTitle (context title : string) (target : Z)
| openUrl (url : string).

(** A live [setInterval] timer of the runtime; its callback is
    [() => this.refreshStatus(context)], so the closure is its [context]. *)
Record Interval : Type := {
  handle : nat;
  callback_context : string;
  delay : Z
}.

(** A [refreshStatus] call suspended at [await fetchWorkflowStatus(...)]: the
    variables its continuation and the pending fetch still use. *)
Record Suspended : Type := {
  s_context : string;
  s_token : string;
  s_owner : string;
  s_repo : string;
  s_workflow : option string
}.

(** The plugin object together with the runtime state it acts on. *)
Record StreamDeckPlugin : Type := {
  websocket : option ReadyState;
  actions : gmap string ActionInstance;
  pluginUUID : string;
  (** the event name the [open] handler installed by [connect] has captured *)
  registerEvent : string;
  imagesCache : gmap string string;
  (** runtime: live interval timers and the next handle to give out *)
  intervals : list Interval;
  next_handle : nat;
  (** runtime: every HTTPS request issued so far, oldest first *)
  requests : list RequestOptions;
  (** runtime: the [refreshStatus] calls waiting for their fetch *)
  suspended : list Suspended;
  (** runtime: every frame written to the socket so far, oldest first *)
  sent : list Frame
}.

Definition with_websocket (w : option ReadyState) (p : StreamDeckPlugin) : StreamDeckPlugin :=
  {| websocket := w; actions := actions p; pluginUUID := pluginUUID p;
     registerEvent := registerEvent p; imagesCache := imagesCache p; intervals := intervals p;
     next_handle := next_handle p; requests := requests p;
     suspended := suspended p; sent := sent p |}.

Definition with_actions (a : gmap string ActionInstance) (p : StreamDeckPlugin)
  : StreamDeckPlugin :=
  {| websocket := websocket p; actions := a; pluginUUID := pluginUUID p;
     registerEvent := registerEvent p; imagesCache := imagesCache p; intervals := intervals p;
     next_handle := next_handle p; requests := requests p;
     suspended := suspended p; sent := sent p |}.

Definition with_pluginUUID (u : string) (p : StreamDeckPlugin) : StreamDeckPlugin :=
  {| websocket := websocket p; actions := actions p; pluginUUID := u;
     registerEvent := registerEvent p; imagesCache := imagesCache p; intervals := intervals p;
     next_handle := next_handle p; requests := requests p;
     suspended := suspended p; sent := sent p |}.

Definition with_registerEvent (e : string) (p : StreamDeckPlugin) : StreamDeckPlugin :=
  {| websocket := websocket p; actions := actions p; pluginUUID := pluginUUID p;
     registerEvent := e; imagesCache := imagesCache p; intervals := intervals p;
     next_handle := next_handle p; requests := requests p;
     suspended := suspended p; sent := sent p |}.

Definition with_timers (ts : list Interval) (n : nat) (p : StreamDeckPlugin)
  : StreamDeckPlugin :=
  {| websocket := websocket p; actions := actions p; pluginUUID := pluginUUID p;
     registerEvent := registerEvent p; imagesCache := imagesCache p; intervals := ts;
     next_handle := n; requests := requests p;
     suspended := suspended p; sent := sent p |}.

Definition with_fetches (rs : list RequestOptions) (ks : list Suspended)
  (p : StreamDeckPlugin) : StreamDeckPlugin :=
  {| websocket := websocket p; actions := actions p; pluginUUID := pluginUUID p;
     registerEvent := registerEvent p; imagesCache := imagesCache p; intervals := intervals p;
     next_handle := next_handle p; requests := rs;
     suspended := ks; sent := sent p |}.

Definition with_sent (fs : list Frame) (p : StreamDeckPlugin) : StreamDeckPlugin :=
  {| websocket := websocket p; actions := actions p; pluginUUID := pluginUUID p;
     registerEvent := registerEvent p; imagesCache := imagesCache p; intervals := intervals p;
     next_handle := next_handle p; requests := requests p;
     suspended := suspended p; sent := fs |}.

Definition with_refreshTimer (t : option nat) (i : ActionInstance) : ActionInstance :=
  {| context := context i; settings := settings i;
     refreshTimer := t; keyDownTime := keyDownTime i |}.

Definition with_keyDownTime (t : option Z) (i : ActionInstance) : ActionInstance :=
  {| context := context i; settings := settings i;
     refreshTimer := refreshTimer i; keyDownTime := t |}.

Definition with_settings (s : ActionSettings) (i : ActionInstance) : ActionInstance :=
  {| context := context i; settings := s;
     refreshTimer := refreshTimer i; keyDownTime := keyDownTime i |}.

(** *** The runtime's timers *)

(** [setInterval(() => this.refreshStatus(context), delay)]: a fresh handle. *)
Definition setInterval (context : string) (delay : Z) (p : StreamDeckPlugin)
  : nat * StreamDeckPlugin :=
  let h := next_handle p in
  (h, with_timers
        (intervals p ++ [{| handle := h; callback_context := context; delay := delay |}])
        (S h) p).

(** [clearInterval(h)]. *)
Definition clearInterval (h : nat) (p : StreamDeckPlugin) : StreamDeckPlugin :=
  with_timers (filter (fun t => handle t ≠ h) (intervals p)) (next_handle p) p.

(** *** The class *)

(** The key under which [loadImages] caches the image of a status. *)
Definition statusKey (status : WorkflowStatus) : string :=
  match status with
  | success => "success"
  | failure => "failure"
  | pending => "pending"
  | unknown => "unknown"
  end.

(** The plugin after its constructor; [images] is what [loadImages] could read. *)
Definition new_StreamDeckPlugin (images : gmap string string) : StreamDeckPlugin :=
  {| websocket := None; actions := ∅; pluginUUID := ""; registerEvent := "";
     imagesCache := images; intervals := []; next_handle := 0%nat;
     requests := []; suspended := []; sent := [] |}.

Definition send (data : Frame) (p : StreamDeckPlugin) : StreamDeckPlugin :=
  match websocket p with
  | Some OPEN => with_sent (sent p ++ [data]) p
  | _ => p
  end.

(** [connect(port, uuid, registerEvent, _info)]: the identity is stored, the
    socket is created, and the [open] handler keeps [registerEvent] for the
    registration it sends; [port] only names the address of the socket and
    [_info] is not used. *)
Definition connect (uuid registerEvent : string) (p : StreamDeckPlugin) : StreamDeckPlugin :=
  with_websocket (Some CONNECTING) (with_registerEvent registerEvent (with_pluginUUID uuid p)).

Definition getDefaultSettings : ActionSettings :=
  {| githubToken := ""; owner := ""; repo := ""; workflow := Some "";
     refreshInterval := Some 60 |}.

Definition formatStatusText (status : WorkflowStatus) : string :=
  match status with
  | success => "Success"
  | failure => "Failed"
  | pending => "Running"
  | unknown => "Unknown"
  end.

Definition updateDisplay (context : string) (status : WorkflowStatus) (title : string)
  (p : StreamDeckPlugin) : StreamDeckPlugin :=
  let p :=
    match imagesCache p !! statusKey status with
    | Some image => if truthy image then send (setImage context image 0) p else p
    | None => p
    end in
  send (setTitle context title 0) p.

Definition openGitHub (instance : ActionInstance) (p : StreamDeckPlugin) : StreamDeckPlugin :=
  let s := settings instance in
  let url := "https://github.com/" ++ owner s ++ "/" ++ repo s ++ "/actions" in
  let url :=
    match workflow s with
    | Some w => if truthy w then url ++ "/workflows/" ++ w else url
    | None => url
    end in
  send (openUrl url) p.

(** [refreshStatus] up to its [await]: either it finishes (no session, or the
    "Configure" display), or it shows the loading state, issues the request of
    [fetchWorkflowStatus] and suspends. *)
Definition refreshStatus (context : string) (p : StreamDeckPlugin) : StreamDeckPlugin :=
  match actions p !! context with
  | None => p
  | Some instance =>
      let s := settings instance in
      if negb (truthy (githubToken s)) || negb (truthy (owner s)) || negb (truthy (repo s))
      then updateDisplay context unknown "Configure" p
      else
        let p := updateDisplay context pending "Loading..." p in
        with_fetches
          (requests p ++ [request_options (githubToken s) (owner s) (repo s) (workflow s)])
          (suspended p ++ [{| s_context := context; s_token := githubToken s;
                              s_owner := owner s; s_repo := repo s;
                              s_workflow := workflow s |}])
          p
  end.

Definition startRefreshTimer (context : string) (p : StreamDeckPlugin) : StreamDeckPlugin :=
  match actions p !! context with
  | None => p
  | Some instance =>
      let interval := js_or_num (refreshInterval (settings instance)) 60 * 1000 in
      let '(h, p) := setInterval context interval p in
      with_actions (<[context := with_refreshTimer (Some h) instance]> (actions p)) p
  end.

Definition stopRefreshTimer (context : string) (p : StreamDeckPlugin) : StreamDeckPlugin :=
  match actions p !! context with
  | Some instance =>
      match refreshTimer instance with
      | Some h =>
          let p := clearInterval h p in
          with_actions (<[context := with_refreshTimer None instance]> (actions p)) p
      | None => p
      end
  | None => p
  end.

Definition handleWillAppear (context : string) (payload_settings : option ActionSettings)
  (p : StreamDeckPlugin) : StreamDeckPlugin :=
  let settings :=
    match payload_settings with
    | Some s => s
    | None => getDefaultSettings
    end in
  let instance :=
    {| context := context; settings := settings;
       refreshTimer := None; keyDownTime := None |} in
  let p := with_actions (<[context := instance]> (actions p)) p in
  let p := startRefreshTimer context p in
  refreshStatus context p.

Definition handleWillDisappear (context : string) (p : StreamDeckPlugin) : StreamDeckPlugin :=
  let p :=
    match actions p !! context with
    | Some instance =>
        match refreshTimer instance with
        | Some h => clearInterval h p
        | None => p
        end
    | None => p
    end in
  with_actions (delete context (actions p)) p.

(** [now] is the value of [Date.now()]. *)
Definition handleKeyDown (now : Z) (context : string) (p : StreamDeckPlugin)
  : StreamDeckPlugin :=
  match actions p !! context with
  | Some instance =>
      with_actions (<[context := with_keyDownTime (Some now) instance]> (actions p)) p
  | None => p
  end.

Definition handleKeyUp (now : Z) (context : string) (p : StreamDeckPlugin)
  : StreamDeckPlugin :=
  match actions p !! context with
  | None => p
  | Some instance =>
      let pressDuration := now - js_or_num (keyDownTime instance) 0 in
      let p :=
        if LONG_PRESS_THRESHOLD <=? pressDuration
        then openGitHub instance p
        else refreshStatus context p in
      with_actions (<[context := with_keyDownTime None instance]> (actions p)) p
  end.

Definition handleDidReceiveSettings (context : string) (payload_settings : ActionSettings)
  (p : StreamDeckPlugin) : StreamDeckPlugin :=
  match actions p !! context with
  | Some instance =>
      let p := with_actions (<[context := with_settings payload_settings instance]> (actions p)) p in
      let p := stopRefreshTimer context p in
      let p := startRefreshTimer context p in
      refreshStatus context p
  | None => p
  end.

(** The messages [handleMessage] dispatches on, with the payload each handler
    casts to; every other event name is [otherEvent]. *)
Inductive Message : Type :=
| willAppear (context : string) (payload_settings : option ActionSettings)
| willDisappear (context : string)
| keyDown (context : string)
| keyUp (context : string)
| didReceiveSettings (context : string) (payload_settings : ActionSettings)
| otherEvent (event : string).

Definition handleMessage (now : Z) (message : Message) (p : StreamDeckPlugin)
  : StreamDeckPlugin :=
  match message with
  | willAppear context payload => handleWillAppear context payload p
  | willDisappear context => handleWillDisappear context p
  | keyDown context => handleKeyDown now context p
  | keyUp context => handleKeyUp now context p
  | didReceiveSettings context payload => handleDidReceiveSettings context payload p
  | otherEvent _ => p
  end.

Section WithRuntime.

Variable JSON_parse : string -> option GitHubActionsResponse.

(** The rest of [refreshStatus] once the fetch of the suspended call [k] has
    settled with [o]. *)
Definition refreshStatus_resume (k : Suspended) (o : HttpOutcome) (p : StreamDeckPlugin)
  : StreamDeckPlugin :=
  match fetchWorkflowStatus JSON_parse (fun _ => o)
          (s_token k) (s_owner k) (s_repo k) (s_workflow k) with
  | inr result =>
      let displayText :=
        if truthy_opt (res_error result) then "Error"
        else formatStatusText (res_status result) in
      updateDisplay (s_context k) (res_status result) displayText p
  | inl _ => p
  end.

(** What the event loop can run next. *)
Inductive Event : Type :=
| SocketOpen
| SocketClosed
| Receive (now : Z) (message : Message)
| TimerFire (h : nat)
| FetchSettled (i : nat) (o : HttpOutcome).

Definition step (e : Event) (p : StreamDeckPlugin) : StreamDeckPlugin :=
  match e with
  | SocketOpen =>
      match websocket p with
      | Some CONNECTING =>
          send (register (registerEvent p) (pluginUUID p)) (with_websocket (Some OPEN) p)
      | _ => p
      end
  | SocketClosed =>
      match websocket p with
      | Some _ => with_websocket (Some CLOSED) p
      | None => p
      end
  | Receive now message => handleMessage now message p
  | TimerFire h =>
      match list_find (fun t => handle t = h) (intervals p) with
      | Some (_, t) => refreshStatus (callback_context t) p
      | None => p
      end
  | FetchSettled i o =>
      match suspended p !! i with
      | Some k =>
          refreshStatus_resume k o
            (with_fetches (requests p) (delete i (suspended p)) p)
      | None => p
      end
  end.

Definition run (events : list Event) (p : StreamDeckPlugin) : StreamDeckPlugin :=
  foldl (fun p e => step e p) p events.

End WithRuntime.

End Plugin.

(** ** The status classifier, in the words of the specification *)

Module StatusClassifierSpec.
Import Types.

(** Rules 2 to 4 of the classifier: first match wins. *)
Definition classify (lifecycle : string) (outcome : option string) : WorkflowStatus :=
  if decide (lifecycle = "completed") then
    if decide (outcome = Some "success") then success
    else if decide (outcome ∈ [Some "failure"; Some "cancelled"; Some "timed_out"]) then failure
    else unknown
  else if decide (lifecycle ∈ ["in_progress"; "queued"; "pending"; "waiting"]) then pending
  else unknown.

End StatusClassifierSpec.

(** ** The error classes of the fetcher, in the words of the specification *)

Module FetcherSpec.
Import JS Types GithubApi.

(** The general run list of a repository. *)
Definition general_run_list (owner repo : string) : string :=
  "https://github.com/" ++ owner ++ "/" ++ repo ++ "/actions".

(** The failure conditions and the text each is reported with: transport
    failure, timeout, 401, 404, any other non-200 status, and a 200 answer
    whose body does not parse.  [None] is a 200 answer that parses. *)
Definition failure_text (JSON_parse : string -> option GitHubActionsResponse)
  (o : HttpOutcome) : option string :=
  match o with
  | RequestError message => Some ("Network error: " ++ message)
  | RequestTimeout => Some "Request timeout"
  | ResponseEnd statusCode data =>
      if decide (statusCode = 401) then Some "Invalid GitHub token"
      else if decide (statusCode = 404) then Some "Repository or workflow not found"
      else if decide (statusCode ≠ 200) then Some ("GitHub API error: " ++ toString statusCode)
      else match JSON_parse data with
           | None => Some "Failed to parse GitHub response"
           | Some _ => None
           end
  end.

(** The record the [catch] block builds. *)
Definition caught (owner repo errorMessage : string) : WorkflowStatusResult :=
  {| res_status := unknown;
     res_name := "Error";
     res_url := general_run_list owner repo;
     res_branch := "";
     res_updatedAt := None;
     res_error := Some errorMessage |}.

End FetcherSpec.

(** ** The scheduler and the gesture detector, in the words of the specification *)

Module PluginSpec.
Import JS Types GithubApi Plugin.

Inductive Gesture : Type := short | long.

#[export] Instance Gesture_eq_dec : EqDecision Gesture.
Proof. solve_decision. Defined.

(** Elapsed time below the 500 ms threshold is a short press, otherwise a long one. *)
Definition classify_press (elapsed : Z) : Gesture :=
  if decide (elapsed < 500) then short else long.

(** A short gesture resolves to a refresh, a long one to opening the URL. *)
Definition resolve_gesture (g : Gesture) (instance : ActionInstance) (context : string)
  (p : StreamDeckPlugin) : StreamDeckPlugin :=
  match g with
  | short => refreshStatus context p
  | long => openGitHub instance p
  end.

(** The stored press timestamp of a session is cleared. *)
Definition clear_press (context : string) (p : StreamDeckPlugin) : StreamDeckPlugin :=
  with_actions (alter (with_keyDownTime None) context (actions p)) p.

(** Credential, owner and repository are all non-empty. *)
Definition configured (s : ActionSettings) : Prop :=
  githubToken s ≠ "" ∧ owner s ≠ "" ∧ repo s ≠ "".

#[export] Instance configured_dec s : Decision (configured s).
Proof. unfold configured. apply _. Defined.

(** The socket accepts frames. *)
Definition is_open (p : StreamDeckPlugin) : bool :=
  match websocket p with
  | Some OPEN => true
  | _ => false
  end.

(** The frames of one display update: the image of the status when one is
    cached, then the title. *)
Definition display_frames (p : StreamDeckPlugin) (context : string)
  (status : WorkflowStatus) (title : string) : list Frame :=
  if is_open p then
    match imagesCache p !! statusKey status with
    | Some image => if decide (image = "") then [] else [setImage context image 0]
    | None => []
    end ++ [setTitle context title 0]
  else [].

(** The request one fetch issues for the settings [s]. *)
Definition fetch_request (s : ActionSettings) : RequestOptions :=
  request_options (githubToken s) (owner s) (repo s) (workflow s).

(** The suspended refresh of the session [context] under the settings [s]. *)
Definition fetch_pending (context : string) (s : ActionSettings) : Suspended :=
  {| s_context := context; s_token := githubToken s; s_owner := owner s;
     s_repo := repo s; s_workflow := workflow s |}.

(** The title shown for a fetch result: "Error" when the result carries an
    error, and otherwise the title of its status, "Success", "Failed",
    "Running" or "Unknown". *)
Definition result_title (result : WorkflowStatusResult) : string :=
  match res_error result with
  | Some _ => "Error"
  | None =>
      match res_status result with
      | success => "Success"
      | failure => "Failed"
      | pending => "Running"
      | unknown => "Unknown"
      end
  end.

(** The seconds behind the delay of a timer for a configured interval: the
    interval itself, or 60 when it is absent or zero. *)
Definition period_seconds (interval : option Z) : Z :=
  match interval with
  | Some n => if decide (n = 0) then 60 else n
  | None => 60
  end.

(** The handles of the live timers. *)
Definition live_handles (p : StreamDeckPlugin) : list nat := handle <$> intervals p.

(** The live timers whose callback refreshes the session [context]. *)
Definition timers_of (context : string) (p : StreamDeckPlugin) : list Interval :=
  filter (fun t => callback_context t = context) (intervals p).

(** From [p] to [q] timers were only cleared or created under fresh handles. *)
Definition fresh_growth (p q : StreamDeckPlugin) : Prop :=
  (next_handle p ≤ next_handle q)%nat ∧
  ∀ t, t ∈ intervals q → t ∈ intervals p ∨ (next_handle p ≤ handle t)%nat.

(** The handle [h] was given out and its timer is not live. *)
Definition cancelled (h : nat) (p : StreamDeckPlugin) : Prop :=
  (h < next_handle p)%nat ∧ h ∉ live_handles p.

(** The settings the session [context] currently holds. *)
Definition settings_of (context : string) (p : StreamDeckPlugin) : option ActionSettings :=
  settings <$> (actions p !! context).

(** The event is an appear, disappear or settings-changed message for [context]. *)
Definition readdresses (context : string) (e : Event) : Prop :=
  match e with
  | Receive _ (willAppear c _) => c = context
  | Receive _ (willDisappear c) => c = context
  | Receive _ (didReceiveSettings c _) => c = context
  | _ => False
  end.

(** Every session of the map holds the handle of a timer the runtime gave out. *)
Definition tracked (m : gmap string ActionInstance) (n : nat) : Prop :=
  ∀ c i, m !! c = Some i → ∃ h, refreshTimer i = Some h ∧ (h < n)%nat.

Definition managed (p : StreamDeckPlugin) : Prop := tracked (actions p) (next_handle p).

(** The timer a session should own: stored handle, own key, delay of its settings. *)
Definition session_timer (c : string) (i : ActionInstance) : list Interval :=
  match refreshTimer i with
  | Some h => [{| handle := h; callback_context := c;
                  delay := period_seconds (refreshInterval (settings i)) * 1000 |}]
  | None => []
  end.

(** The sessions [m], the live timers [l] and the next handle [n] agree: the
    timers of a key are exactly the timer of its session, every session holds a
    handle that was given out, and no two sessions hold the same handle. *)
Definition orderly_at (m : gmap string ActionInstance) (l : list Interval) (n : nat) : Prop :=
  (∀ c, filter (fun t => callback_context t = c) l
        = match m !! c with
          | Some i => session_timer c i
          | None => []
          end) ∧
  tracked m n ∧
  (∀ c c' i i' h,
     m !! c = Some i → m !! c' = Some i' →
     refreshTimer i = Some h → refreshTimer i' = Some h → c = c').

Definition orderly (p : StreamDeckPlugin) : Prop :=
  orderly_at (actions p) (intervals p) (next_handle p).

(** The event is an appear message for a key whose session is active. *)
Definition reappears (p : StreamDeckPlugin) (e : Event) : Prop :=
  match e with
  | Receive _ (willAppear c _) => is_Some (actions p !! c)
  | _ => False
  end.

(** No event of the sequence, run from [p], is an appear for an active key. *)
Fixpoint no_reappear (JSON_parse : string -> option GitHubActionsResponse)
  (events : list Event) (p : StreamDeckPlugin) : Prop :=
  match events with
  | [] => True
  | e :: events => ¬ reappears p e ∧ no_reappear JSON_parse events (step JSON_parse e p)
  end.

End PluginSpec.

(** ** Sample inputs *)

Module Samples.
Import JS Types GithubApi.
Local Open Scope list_scope.

(** A sample provider: every request is answered 200 with a body that parses to
    an empty run list, except for the repository "gone", which is a 404, and the
    repository "garbled", whose body does not parse. *)
Definition sample_parse (data : string) : option GitHubActionsResponse :=
  if String.eqb data "{}" then Some {| total_count := 0; workflow_runs := [] |} else None.

Definition sample_request (options : RequestOptions) : HttpOutcome :=
  if String.eqb (path options) "/repos/acme/gone/actions/runs?per_page=1"
  then ResponseEnd 404 "Not Found"
  else if String.eqb (path options) "/repos/acme/garbled/actions/runs?per_page=1"
  then ResponseEnd 200 "<html>"
  else ResponseEnd 200 "{}".

(** Settings of a configured session, and the same with a negative interval. *)
Definition sample_settings : ActionSettings :=
  {| githubToken := "t0ken"; owner := "acme"; repo := "widgets";
     workflow := None; refreshInterval := Some 30 |}.

Definition negative_interval_settings : ActionSettings :=
  {| githubToken := "t0ken"; owner := "acme"; repo := "widgets";
     workflow := None; refreshInterval := Some (-1) |}.

Definition unconfigured_settings : ActionSettings :=
  {| githubToken := ""; owner := "acme"; repo := "widgets";
     workflow := None; refreshInterval := Some 30 |}.

(** A connected plugin without cached images. *)
Definition connected : Plugin.StreamDeckPlugin :=
  Plugin.step sample_parse Plugin.SocketOpen
    (Plugin.connect "com.example.plugin" "registerPlugin" (Plugin.new_StreamDeckPlugin ∅)).

(** The button "key1" has appeared on the connected plugin; no key was pressed. *)
Definition one_session : Plugin.StreamDeckPlugin :=
  Plugin.step sample_parse (Plugin.Receive 0 (Plugin.willAppear "key1" (Some sample_settings)))
    connected.

(** The same with a credential missing. *)
Definition one_unconfigured_session : Plugin.StreamDeckPlugin :=
  Plugin.step sample_parse
    (Plugin.Receive 0 (Plugin.willAppear "key1" (Some unconfigured_settings))) connected.

(** The button "key1" appears twice without disappearing in between. *)
Definition appeared_twice : Plugin.StreamDeckPlugin :=
  Plugin.run sample_parse
    [Plugin.Receive 0 (Plugin.willAppear "key1" (Some sample_settings));
     Plugin.Receive 5 (Plugin.willAppear "key1" (Some sample_settings))]
    connected.

(** The session "key1" as [one_session] holds it. *)
Definition key1_instance : ActionInstance :=
  {| context := "key1"; settings := sample_settings;
     refreshTimer := Some 0%nat; keyDownTime := None |}.

Definition key1_unconfigured_instance : ActionInstance :=
  {| context := "key1"; settings := unconfigured_settings;
     refreshTimer := Some 0%nat; keyDownTime := None |}.

(** New settings for "key1": another repository, polled every 10 seconds. *)
Definition new_settings : ActionSettings :=
  {| githubToken := "t0ken"; owner := "acme"; repo := "gadgets";
     workflow := Some "ci.yml"; refreshInterval := Some 10 |}.

End Samples.

(** ** src/plugin.ts: construction and start-up *)

Module Bootstrap.
Import JS Types.
Local Open Scope list_scope.

Section FileSystem.

(** [path.join], [__dirname], [fs.readFileSync(p, 'utf-8')] ([None] when it
    throws) and [Buffer.from(s).toString('base64')]. *)
Variable path_join : string -> string -> string.
Variable dirname : string.
Variable readFileSync : string -> option string.
Variable base64 : string -> string.

Definition statuses : list WorkflowStatus := [success; failure; pending; unknown].

Definition svgPath (status : WorkflowStatus) : string :=
  path_join (path_join dirname "images")
    ("status-" ++ Plugin.statusKey status ++ ".svg")%string.

(** [loadImages], as it fills [this.imagesCache]. *)
Definition loadImages (imagesCache : gmap string string) : gmap string string :=
  foldl (fun cache status =>
           match readFileSync (svgPath status) with
           | Some svgContent =>
               <[Plugin.statusKey status :=
                   ("data:image/svg+xml;base64," ++ base64 svgContent)%string]> cache
           | None => cache
           end)
    imagesCache statuses.

(** [new StreamDeckPlugin()]. *)
Definition constructor : Plugin.StreamDeckPlugin :=
  Plugin.new_StreamDeckPlugin (loadImages ∅).

End FileSystem.

(** The four variables of [main]; [port] is [None] while it is [undefined] and
    when [parseInt] gave [NaN]. *)
Record Parsed : Type := {
  port : option Z;
  pluginUUID : option string;
  registerEvent : option string;
  info : option string
}.

Definition with_port (v : option Z) (a : Parsed) : Parsed :=
  {| port := v; pluginUUID := pluginUUID a; registerEvent := registerEvent a; info := info a |}.

Definition with_pluginUUID (v : option string) (a : Parsed) : Parsed :=
  {| port := port a; pluginUUID := v; registerEvent := registerEvent a; info := info a |}.

Definition with_registerEvent (v : option string) (a : Parsed) : Parsed :=
  {| port := port a; pluginUUID := pluginUUID a; registerEvent := v; info := info a |}.

Definition with_info (v : option string) (a : Parsed) : Parsed :=
  {| port := port a; pluginUUID := pluginUUID a; registerEvent := registerEvent a; info := v |}.

Definition unset : Parsed :=
  {| port := None; pluginUUID := None; registerEvent := None; info := None |}.

(** What [main] ends in: the call [plugin.connect(port, pluginUUID,
    registerEvent, info || '')] on a new plugin, or [process.exit(code)]. *)
Inductive Started : Type :=
| connect_with (port : Z) (pluginUUID registerEvent info : string)
| exit (code : Z).

Section Arguments.

(** [parseInt(s, 10)]: [None] is [NaN]. *)
Variable parseInt : string -> option Z.

(** The loop of [main] over [args]: a flag takes the next argument as its value
    ([args[++i]]), which is [undefined] when the flag comes last. *)
Fixpoint parse (args : list string) (a : Parsed) : Parsed :=
  match args with
  | [] => a
  | arg :: rest =>
      if String.eqb arg "-port" then
        match rest with
        | value :: rest => parse rest (with_port (parseInt value) a)
        | [] => with_port None a
        end
      else if String.eqb arg "-pluginUUID" then
        match rest with
        | value :: rest => parse rest (with_pluginUUID (Some value) a)
        | [] => with_pluginUUID None a
        end
      else if String.eqb arg "-registerEvent" then
        match rest with
        | value :: rest => parse rest (with_registerEvent (Some value) a)
        | [] => with_registerEvent None a
        end
      else if String.eqb arg "-info" then
        match rest with
        | value :: rest => parse rest (with_info (Some value) a)
        | [] => with_info None a
        end
      else parse rest a
  end.

(** [main], from [process.argv]. *)
Definition main (argv : list string) : Started :=
  let args := drop 2 argv in
  let a := parse args unset in
  match port a, pluginUUID a, registerEvent a with
  | Some port, Some pluginUUID, Some registerEvent =>
      if negb (port =? 0) && truthy pluginUUID && truthy registerEvent
      then connect_with port pluginUUID registerEvent (js_or (info a) "")
      else exit 1
  | _, _, _ => exit 1
  end.

End Arguments.

End Bootstrap.

(** ** The second version of the plugin: the timestamp of [generateImage] *)

Module Rendering.
Import JS.
Local Open Scope string_scope.

Fixpoint repeat_string (n : nat) (s : string) : string :=
  match n with
  | O => ""
  | S n => s ++ repeat_string n s
  end.

(** [s.padStart(targetLength, padString)]. *)
Definition padStart (targetLength : nat) (padString : string) (s : string) : string :=
  let len := String.length s in
  if (targetLength <=? len)%nat then s
  else if String.eqb padString "" then s
  else
    let fillLen := (targetLength - len)%nat in
    String.substring 0 fillLen (repeat_string fillLen padString) ++ s.

(** The getters [generateImage] reads off a [Date]. *)
Record DateParts : Type := {
  getDate : Z;
  getMonth : Z;
  getHours : Z;
  getMinutes : Z
}.

(** [n.toString()] for a number that may be [NaN]. *)
Definition number_toString (n : option Z) : string :=
  match n with
  | Some n => toString n
  | None => "NaN"
  end.

Section WithDate.

(** [new Date(dateStr)] in local time: [None] is an invalid date, all of whose
    getters return [NaN]. *)
Variable Date_new : string -> option DateParts.

(** The [dateDisplay] that [generateImage] computes ("DD/MM HH:MM"). *)
Definition dateDisplay (dateStr : option string) : string :=
  match dateStr with
  | Some d =>
      if truthy d then
        let date := Date_new d in
        let day := padStart 2 "0" (number_toString (getDate <$> date)) in
        let month := padStart 2 "0" (number_toString ((fun p => getMonth p + 1) <$> date)) in
        let hours := padStart 2 "0" (number_toString (getHours <$> date)) in
        let minutes := padStart 2 "0" (number_toString (getMinutes <$> date)) in
        day ++ "/" ++ month ++ " " ++ hours ++ ":" ++ minutes
      else ""
  | None => ""
  end.

End WithDate.

End Rendering.

(** ** Views of the fetcher's answers *)

Module FetcherViews.
Import JS Types GithubApi.
Local Open Scope list_scope.

(** The answer is a 200 whose body parses to at least one run, [run] first. *)
Definition answers_with (JSON_parse : string -> option GitHubActionsResponse)
  (outcome : HttpOutcome) (run : WorkflowRun) : Prop :=
  ∃ data runs older,
    outcome = ResponseEnd 200 data ∧ JSON_parse data = Some runs ∧
    total_count runs ≠ 0 ∧ workflow_runs runs = run :: older.

(** The record built from the latest run. *)
Definition from_run (run : WorkflowRun) : WorkflowStatusResult :=
  {| res_status := mapGitHubStatus (run_status run) (conclusion run);
     res_name := run_name run;
     res_url := html_url run;
     res_branch := head_branch run;
     res_updatedAt := None;
     res_error := None |}.

End FetcherViews.

(** ** Views of a run of the plugin *)

Module SessionViews.
Import JS Types GithubApi Plugin PluginSpec.
Local Open Scope list_scope.

(** The key a message is addressed to. *)
Definition key_of (message : Message) : option string :=
  match message with
  | willAppear c _ => Some c
  | willDisappear c => Some c
  | keyDown c => Some c
  | keyUp c => Some c
  | didReceiveSettings c _ => Some c
  | otherEvent _ => None
  end.

(** A request built by [getWorkflowRuns] from settings with a credential, an
    owner and a repository. *)
Definition authorised (r : RequestOptions) : Prop :=
  ∃ s, configured s ∧ r = fetch_request s.

(** From [p] to [q] the socket, the plugin identity, the captured event name
    and the image cache are the same, frames were only appended to the wire, and none while the socket
    does not accept frames, and only authorised requests were added. *)
Definition trace_extends (p q : StreamDeckPlugin) : Prop :=
  websocket q = websocket p ∧
  pluginUUID q = pluginUUID p ∧
  imagesCache q = imagesCache p ∧
  (∃ frames, sent q = sent p ++ frames ∧ (is_open p = false → frames = [])) ∧
  (∃ rs, requests q = requests p ++ rs ∧ Forall authorised rs) ∧
  registerEvent q = registerEvent p.

(** The event is one of the two socket events. *)
Definition socket_event (e : Event) : Prop :=
  match e with
  | SocketOpen | SocketClosed => True
  | _ => False
  end.

(** Nothing was sent yet, or the first frame is the registration
    [{event: registerEvent, uuid}]. *)
Definition registers_first (uuid registerEvent : string) (p : StreamDeckPlugin) : Prop :=
  sent p = [] ∨ ∃ frames, sent p = register registerEvent uuid :: frames.

End SessionViews.

(** ** Views of the command line and of the rendered timestamp *)

Module BootstrapViews.
Import JS Types Bootstrap.
Local Open Scope list_scope.

(** A command line read as tokens: a flag with the argument after it, or an
    argument that is no flag. *)
Inductive Token : Type :=
| flag_value (flag value : string)
| stray (arg : string).

Definition known_flag (arg : string) : Prop :=
  arg ∈ ["-port"; "-pluginUUID"; "-registerEvent"; "-info"].

Definition well_formed (t : Token) : Prop :=
  match t with
  | flag_value flag _ => known_flag flag
  | stray arg => ¬ known_flag arg
  end.

(** The arguments the tokens stand for. *)
Definition spell (tokens : list Token) : list string :=
  tokens ≫= fun t =>
    match t with
    | flag_value flag value => [flag; value]
    | stray arg => [arg]
    end.

Definition flag_of (t : Token) : option string :=
  match t with
  | flag_value flag _ => Some flag
  | stray _ => None
  end.

(** The value given with the last occurrence of [flag]. *)
Fixpoint last_value (flag : string) (tokens : list Token) : option string :=
  match tokens with
  | [] => None
  | t :: tokens =>
      match last_value flag tokens with
      | Some v => Some v
      | None =>
          match t with
          | flag_value f v => if decide (f = flag) then Some v else None
          | stray _ => None
          end
      end
  end.

(** The two decimal digits of a number below 100. *)
Definition two_digits (n : Z) : string :=
  String (Ascii.ascii_of_nat (48 + Z.to_nat (n / 10)))
    (String (Ascii.ascii_of_nat (48 + Z.to_nat (n mod 10))) "").

(** What one token does to the four variables. *)
Definition assign (parseInt : string -> option Z) (t : Token) (a : Parsed) : Parsed :=
  match t with
  | flag_value flag value =>
      if decide (flag = "-port") then with_port (parseInt value) a
      else if decide (flag = "-pluginUUID") then with_pluginUUID (Some value) a
      else if decide (flag = "-registerEvent") then with_registerEvent (Some value) a
      else if decide (flag = "-info") then with_info (Some value) a
      else a
  | stray _ => a
  end.

End BootstrapViews.

(** ** More sample inputs *)

Module MoreSamples.
Import JS Types GithubApi.
Local Open Scope list_scope.

Definition green_run : WorkflowRun :=
  {| run_id := 42; run_name := "CI"; run_status := "completed";
     conclusion := Some "success";
     html_url := "https://github.com/acme/widgets/actions/runs/42";
     created_at := "2024-05-01T10:00:00Z"; updated_at := "2024-05-01T10:05:00Z";
     head_branch := "main"; head_sha := "0a1b2c3" |}.

Definition red_run : WorkflowRun :=
  {| run_id := 41; run_name := "CI"; run_status := "completed";
     conclusion := Some "failure";
     html_url := "https://github.com/acme/widgets/actions/runs/41";
     created_at := "2024-04-30T10:00:00Z"; updated_at := "2024-04-30T10:05:00Z";
     head_branch := "main"; head_sha := "9f8e7d6" |}.

(** A provider whose answer lists the green run first and the red run second. *)
Definition runs_parse (data : string) : option GitHubActionsResponse :=
  if String.eqb data "runs" then Some {| total_count := 2; workflow_runs := [green_run; red_run] |}
  else None.

Definition runs_request (options : RequestOptions) : HttpOutcome := ResponseEnd 200 "runs".

(** The button "key1" has appeared, its first refresh was answered with the two
    runs, and the key is being pressed since time 1000. *)
Definition fetched_green : Plugin.StreamDeckPlugin :=
  Plugin.run runs_parse
    [Plugin.Receive 0 (Plugin.willAppear "key1" (Some Samples.sample_settings));
     Plugin.FetchSettled 0 (ResponseEnd 200 "runs");
     Plugin.Receive 1000 (Plugin.keyDown "key1")]
    Samples.connected.

(** A plugin directory in which only the image of [success] can be read. *)
Definition sample_join (a b : string) : string := (a ++ "/" ++ b)%string.

Definition sample_readFileSync (path : string) : option string :=
  if String.eqb path "/plugin/images/status-success.svg" then Some "<svg/>" else None.

Definition sample_base64 (content : string) : string :=
  if String.eqb content "<svg/>" then "PHN2Zy8+" else "".

(** The plugin built on that directory, connected and with its socket open. *)
Definition opened : Plugin.StreamDeckPlugin :=
  Plugin.run Samples.sample_parse [Plugin.SocketOpen]
    (Plugin.connect "com.example.plugin" "registerPlugin"
       (Bootstrap.constructor sample_join "/plugin" sample_readFileSync sample_base64)).

(** [parseInt] on the one port number of the samples. *)
Definition sample_parseInt (value : string) : option Z :=
  if String.eqb value "28196" then Some 28196 else None.

(** A first of May, 9:05 in the morning. *)
Definition sample_Date (dateStr : string) : option Rendering.DateParts :=
  if String.eqb dateStr "2024-05-01T09:05:00Z"
  then Some {| Rendering.getDate := 1; Rendering.getMonth := 4;
               Rendering.getHours := 9; Rendering.getMinutes := 5 |}
  else None.

End MoreSamples.

(** ** Properties of src/github-api.ts *)

Module GithubApiFacts.
Import JS Types GithubApi Samples.

Lemma eqb_decide (s t : string) : String.eqb s t = bool_decide (s = t).
Proof.
  destruct (String.eqb_spec s t) as [->|Hne].
  - by rewrite bool_decide_eq_true_2.
  - by rewrite bool_decide_eq_false_2.
Qed.

Ltac split_on s lit := destruct (decide (s = lit)) as [->|?].

(** C1. [mapGitHubStatus] is the order-sensitive total map of the specification:
    lifecycle "completed" gives [success] for outcome "success", [failure] for
    "failure", "cancelled" and "timed_out", and [unknown] for every other outcome
    (null included); otherwise lifecycle "in_progress", "queued", "pending" or
    "waiting" gives [pending] whatever the outcome; every other lifecycle gives
    [unknown]. *)
Theorem mapGitHubStatus_is_spec_classifier (status : string) (conclusion : option string) :
  mapGitHubStatus status conclusion = StatusClassifierSpec.classify status conclusion.
Proof.
  unfold mapGitHubStatus, StatusClassifierSpec.classify.
  rewrite !eqb_decide.
  destruct (decide (status = "completed")) as [->|Hs].
  - rewrite bool_decide_eq_true_2 by done.
    destruct conclusion as [c|]; [|done].
    rewrite !eqb_decide.
    split_on c "success"; [done|].
    split_on c "failure"; [done|].
    split_on c "cancelled"; [done|].
    split_on c "timed_out"; [done|].
    rewrite !bool_decide_eq_false_2 by assumption.
    rewrite decide_False by congruence.
    rewrite decide_False; [done|].
    rewrite !elem_of_cons, elem_of_nil. intuition congruence.
  - rewrite (bool_decide_eq_false_2 _ Hs).
    split_on status "in_progress"; [done|].
    split_on status "queued"; [done|].
    split_on status "pending"; [done|].
    split_on status "waiting"; [done|].
    rewrite !bool_decide_eq_false_2 by assumption. simpl.
    rewrite decide_False; [done|].
    rewrite !elem_of_cons, elem_of_nil. intuition congruence.
Qed.

Section Fetcher.

Variable JSON_parse : string -> option GitHubActionsResponse.
Variable https_request : RequestOptions -> HttpOutcome.

(** Whatever the awaited promise does, the [try]/[catch] returns a record. *)
Lemma try_catch_total {A} (body : Settled A) (handler : Thrown -> A) :
  ∃ a, try_catch body (fun e => resolve (handler e)) = inr a.
Proof. destruct body as [e|a]; simpl; eauto. Qed.

Lemma fetchWorkflowStatus_returns token owner repo workflow :
  ∃ result,
    fetchWorkflowStatus JSON_parse https_request token owner repo workflow = inr result.
Proof. unfold fetchWorkflowStatus. apply try_catch_total. Qed.

(** A rejection of [getWorkflowRuns] with an [Error] ends in the [catch] record. *)
Lemma fetchWorkflowStatus_rejected token owner repo workflow message :
  getWorkflowRuns JSON_parse https_request token owner repo workflow
    = reject (ErrorObject message) →
  fetchWorkflowStatus JSON_parse https_request token owner repo workflow
    = inr (FetcherSpec.caught owner repo message).
Proof. unfold fetchWorkflowStatus. intros ->. reflexivity. Qed.

Lemma failure_text_rejects token owner repo workflow message :
  FetcherSpec.failure_text JSON_parse
    (https_request (request_options token owner repo workflow)) = Some message →
  getWorkflowRuns JSON_parse https_request token owner repo workflow
    = reject (ErrorObject message).
Proof.
  unfold getWorkflowRuns, FetcherSpec.failure_text.
  destruct (https_request _) as [statusCode data|m|]; try (intros [= <-]; reflexivity).
  destruct (decide (statusCode = 401)) as [->|H401]; [intros [= <-]; reflexivity|].
  destruct (decide (statusCode = 404)) as [->|H404]; [intros [= <-]; reflexivity|].
  destruct (decide (statusCode ≠ 200)) as [H200|H200].
  - intros [= <-].
    rewrite (proj2 (Z.eqb_neq _ _) H200), (proj2 (Z.eqb_neq _ _) H401),
      (proj2 (Z.eqb_neq _ _) H404). reflexivity.
  - assert (statusCode = 200) as -> by lia. simpl.
    destruct (JSON_parse data); [discriminate|]. intros [= <-]. reflexivity.
Qed.

Lemma failure_text_nonempty o message :
  FetcherSpec.failure_text JSON_parse o = Some message → message ≠ "".
Proof.
  unfold FetcherSpec.failure_text.
  destruct o as [statusCode data|m|]; repeat case_decide;
    try destruct (JSON_parse data); intros [= <-]; discriminate.
Qed.

(** C2. [fetchWorkflowStatus] never throws: for every token, owner, repository
    and optional workflow, and however the request ends, it returns a record;
    and when the request ends in a transport failure, a timeout, a 401, a 404,
    another non-200 status, or a 200 answer whose body does not parse, that
    record has classification [unknown], the non-empty error text of that
    condition, and the URL of the repository's general actions run list. *)
Theorem fetchWorkflowStatus_never_throws token owner repo workflow :
  let outcome := https_request (request_options token owner repo workflow) in
  let answer := fetchWorkflowStatus JSON_parse https_request token owner repo workflow in
  (∃ result, answer = inr result) ∧
  (∀ message,
     FetcherSpec.failure_text JSON_parse outcome = Some message →
     message ≠ "" ∧
     answer = inr {| res_status := unknown;
                     res_name := "Error";
                     res_url := "https://github.com/" ++ owner ++ "/" ++ repo ++ "/actions";
                     res_branch := "";
                     res_updatedAt := None;
                     res_error := Some message |}).
Proof.
  intros outcome answer. split.
  - apply fetchWorkflowStatus_returns.
  - intros message Hfail. split.
    + eapply failure_text_nonempty, Hfail.
    + subst answer. apply fetchWorkflowStatus_rejected, failure_text_rejects, Hfail.
Qed.

(** C6. A successful answer with zero run records ([total_count] 0 or an empty
    run list) is returned, not thrown: classification [unknown], the error text
    "No workflow runs found", and the URL of the repository's general actions
    run list. *)
Theorem fetchWorkflowStatus_zero_runs token owner repo workflow data runs :
  https_request (request_options token owner repo workflow) = ResponseEnd 200 data →
  JSON_parse data = Some runs →
  total_count runs = 0 ∨ workflow_runs runs = [] →
  "No workflow runs found" ≠ "" ∧
  fetchWorkflowStatus JSON_parse https_request token owner repo workflow
    = inr {| res_status := unknown;
             res_name := js_or workflow "No runs";
             res_url := "https://github.com/" ++ owner ++ "/" ++ repo ++ "/actions";
             res_branch := "";
             res_updatedAt := None;
             res_error := Some "No workflow runs found" |}.
Proof.
  intros Hreq Hparse Hzero. split; [discriminate|].
  unfold fetchWorkflowStatus, getWorkflowRuns. rewrite Hreq. simpl. rewrite Hparse. simpl.
  destruct Hzero as [-> | ->]; simpl; [reflexivity|].
  rewrite orb_true_r. reflexivity.
Qed.

(** Every error text the fetcher attaches is non-empty, so it is truthy. *)
Lemma fetchWorkflowStatus_error_truthy token owner repo workflow result :
  fetchWorkflowStatus JSON_parse https_request token owner repo workflow = inr result →
  truthy_opt (res_error result) = bool_decide (is_Some (res_error result)).
Proof.
  unfold fetchWorkflowStatus, getWorkflowRuns.
  destruct (https_request _) as [statusCode data|m|]; simpl;
    try (intros [= <-]; reflexivity).
  destruct (statusCode =? 200).
  - destruct (JSON_parse data) as [runs|]; simpl; [|intros [= <-]; reflexivity].
    destruct (_ || _); simpl; [intros [= <-]; reflexivity|].
    destruct (workflow_runs runs); simpl; intros [= <-]; reflexivity.
  - destruct (statusCode =? 401); [intros [= <-]; reflexivity|].
    destruct (statusCode =? 404); intros [= <-]; reflexivity.
Qed.

End Fetcher.

(** The repository "gone" answers 404: the not-found record is returned. *)
Lemma fetchWorkflowStatus_never_throws_witness :
  fetchWorkflowStatus sample_parse sample_request "t0ken" "acme" "gone" None
    = inr {| res_status := unknown;
             res_name := "Error";
             res_url := "https://github.com/acme/gone/actions";
             res_branch := "";
             res_updatedAt := None;
             res_error := Some "Repository or workflow not found" |}.
Proof.
  apply (fetchWorkflowStatus_never_throws sample_parse sample_request
           "t0ken" "acme" "gone" None).
  reflexivity.
Defined.

(** The repository "widgets" answers with an empty run list. *)
Lemma fetchWorkflowStatus_zero_runs_witness :
  "No workflow runs found" ≠ "" ∧
  fetchWorkflowStatus sample_parse sample_request "t0ken" "acme" "widgets" None
    = inr {| res_status := unknown;
             res_name := "No runs";
             res_url := "https://github.com/acme/widgets/actions";
             res_branch := "";
             res_updatedAt := None;
             res_error := Some "No workflow runs found" |}.
Proof.
  apply (fetchWorkflowStatus_zero_runs sample_parse sample_request
           "t0ken" "acme" "widgets" None "{}" {| total_count := 0; workflow_runs := [] |}).
  - reflexivity.
  - reflexivity.
  - left. reflexivity.
Defined.

End GithubApiFacts.


(** ** Properties of src/plugin.ts *)

Module PluginFacts.
Import JS Types GithubApi Plugin PluginSpec Samples.

Local Open Scope list_scope.

Lemma truthy_nonempty (s : string) : truthy s = bool_decide (s ≠ "").
Proof.
  unfold truthy. destruct (String.eqb_spec s "") as [->|Hne].
  - reflexivity.
  - symmetry. by apply bool_decide_eq_true_2.
Qed.

Lemma string_app_assoc (a b c : string) :
  ((a ++ b) ++ c)%string = (a ++ (b ++ c))%string.
Proof.
  induction a as [|ch a IH]; [reflexivity|].
  change (String ch ((a ++ b) ++ c) = String ch (a ++ (b ++ c)))%string.
  by rewrite IH.
Qed.

Lemma js_or_num_zero (a : option Z) : js_or_num a 0 = default 0 a.
Proof.
  destruct a as [n|]; simpl; [|reflexivity].
  destruct (Z.eqb_spec n 0) as [->|]; reflexivity.
Qed.

Lemma js_or_num_period (a : option Z) : js_or_num a 60 = period_seconds a.
Proof.
  destruct a as [n|]; simpl; [|reflexivity].
  destruct (Z.eqb_spec n 0) as [->|]; [reflexivity|by rewrite decide_False].
Qed.

(** *** What [send] and the display update leave alone *)

Lemma send_sent d p : sent (send d p) = sent p ++ (if is_open p then [d] else []).
Proof.
  unfold send, is_open. destruct (websocket p) as [[]|]; simpl;
    by rewrite ?app_nil_r.
Qed.

Lemma send_frame d p :
  websocket (send d p) = websocket p ∧ actions (send d p) = actions p ∧
  imagesCache (send d p) = imagesCache p ∧ intervals (send d p) = intervals p ∧
  next_handle (send d p) = next_handle p ∧ requests (send d p) = requests p ∧
  suspended (send d p) = suspended p.
Proof. unfold send. destruct (websocket p) as [[]|] eqn:Hws; simpl; done. Qed.

Lemma updateDisplay_sent c st title p :
  sent (updateDisplay c st title p) = sent p ++ display_frames p c st title.
Proof.
  unfold updateDisplay, display_frames.
  destruct (imagesCache p !! statusKey st) as [image|]; simpl.
  - rewrite truthy_nonempty. destruct (decide (image = "")) as [->|Hne].
    + rewrite bool_decide_eq_false_2 by (intros H; by apply H).
      rewrite send_sent. by destruct (is_open p).
    + rewrite bool_decide_eq_true_2 by done.
      rewrite !send_sent.
      assert (is_open (send (setImage c image 0) p) = is_open p) as ->.
      { unfold is_open. by rewrite (proj1 (send_frame _ _)). }
      destruct (is_open p); simpl; by rewrite <- ?app_assoc, ?app_nil_r.
  - rewrite send_sent. by destruct (is_open p).
Qed.

Lemma updateDisplay_frame c st title p :
  websocket (updateDisplay c st title p) = websocket p ∧
  actions (updateDisplay c st title p) = actions p ∧
  imagesCache (updateDisplay c st title p) = imagesCache p ∧
  intervals (updateDisplay c st title p) = intervals p ∧
  next_handle (updateDisplay c st title p) = next_handle p ∧
  requests (updateDisplay c st title p) = requests p ∧
  suspended (updateDisplay c st title p) = suspended p.
Proof.
  unfold updateDisplay.
  destruct (imagesCache p !! statusKey st) as [image|]; [destruct (truthy image)|].
  - destruct (send_frame (setTitle c title 0) (send (setImage c image 0) p))
      as (-> & -> & -> & -> & -> & -> & ->).
    apply send_frame.
  - apply send_frame.
  - apply send_frame.
Qed.

Lemma openGitHub_sent_repository instance p :
  workflow (settings instance) = None ∨ workflow (settings instance) = Some ""%string →
  sent (openGitHub instance p)
  = sent p ++ (if is_open p
               then [openUrl ("https://github.com/" ++ owner (settings instance) ++ "/"
                              ++ repo (settings instance) ++ "/actions")%string]
               else []).
Proof.
  intros Hw. unfold openGitHub. rewrite send_sent. by destruct Hw as [-> | ->].
Qed.

Lemma openGitHub_sent_workflow instance p w :
  workflow (settings instance) = Some w → w ≠ ""%string →
  sent (openGitHub instance p)
  = sent p ++ (if is_open p
               then [openUrl ("https://github.com/" ++ owner (settings instance) ++ "/"
                              ++ repo (settings instance) ++ "/actions/workflows/" ++ w)%string]
               else []).
Proof.
  intros Hw Hne. unfold openGitHub. rewrite send_sent, Hw, truthy_nonempty.
  rewrite bool_decide_eq_true_2 by done. by rewrite !string_app_assoc.
Qed.

Lemma openGitHub_frame instance p :
  websocket (openGitHub instance p) = websocket p ∧
  actions (openGitHub instance p) = actions p ∧
  imagesCache (openGitHub instance p) = imagesCache p ∧
  intervals (openGitHub instance p) = intervals p ∧
  next_handle (openGitHub instance p) = next_handle p ∧
  requests (openGitHub instance p) = requests p ∧
  suspended (openGitHub instance p) = suspended p.
Proof. unfold openGitHub. apply send_frame. Qed.

(** The guard of [refreshStatus] is the negation of [configured]. *)
Lemma missing_settings_guard s :
  negb (truthy (githubToken s)) || negb (truthy (owner s)) || negb (truthy (repo s))
  = bool_decide (¬ configured s).
Proof.
  unfold configured. rewrite !truthy_nonempty.
  destruct (decide (githubToken s = "")) as [Ht|Ht];
  destruct (decide (owner s = "")) as [Ho|Ho];
  destruct (decide (repo s = "")) as [Hr|Hr];
    repeat (first [rewrite (bool_decide_eq_true_2 (_ ≠ "")) by assumption
                  |rewrite (bool_decide_eq_false_2 (_ ≠ "")) by (intros H; by apply H)]);
    simpl; symmetry;
    first [apply bool_decide_eq_true_2; tauto | apply bool_decide_eq_false_2; tauto].
Qed.

Lemma refreshStatus_unconfigured c p instance :
  actions p !! c = Some instance → ¬ configured (settings instance) →
  refreshStatus c p = updateDisplay c unknown "Configure" p.
Proof.
  intros Hc Hs. unfold refreshStatus. rewrite Hc. simpl.
  rewrite missing_settings_guard. by rewrite bool_decide_eq_true_2.
Qed.

Lemma refreshStatus_configured c p instance :
  actions p !! c = Some instance → configured (settings instance) →
  refreshStatus c p
  = with_fetches (requests p ++ [fetch_request (settings instance)])
      (suspended p ++ [fetch_pending c (settings instance)])
      (updateDisplay c pending "Loading..." p).
Proof.
  intros Hc Hs. unfold refreshStatus. rewrite Hc. simpl.
  rewrite missing_settings_guard. rewrite bool_decide_eq_false_2 by tauto.
  destruct (updateDisplay_frame c pending "Loading..." p) as (_ & _ & _ & _ & _ & -> & ->).
  reflexivity.
Qed.

Lemma refreshStatus_frame c p :
  websocket (refreshStatus c p) = websocket p ∧
  actions (refreshStatus c p) = actions p ∧
  imagesCache (refreshStatus c p) = imagesCache p ∧
  intervals (refreshStatus c p) = intervals p ∧
  next_handle (refreshStatus c p) = next_handle p.
Proof.
  unfold refreshStatus. destruct (actions p !! c) as [instance|]; [|done].
  simpl. destruct (_ || _); simpl.
  - destruct (updateDisplay_frame c unknown "Configure" p) as (? & ? & ? & ? & ? & _); done.
  - destruct (updateDisplay_frame c pending "Loading..." p) as (? & ? & ? & ? & ? & _); done.
Qed.

(** C7. In every refresh of an active session: when the credential, the owner or
    the repository is empty, no request is issued and nothing is left waiting,
    and the display is updated to classification [unknown] with title
    "Configure"; when all three are non-empty, one request for these settings is
    issued. *)
Theorem refreshStatus_missing_settings c p instance :
  actions p !! c = Some instance →
  let s := settings instance in
  (githubToken s = "" ∨ owner s = "" ∨ repo s = "" →
     refreshStatus c p = updateDisplay c unknown "Configure" p ∧
     requests (refreshStatus c p) = requests p ∧
     suspended (refreshStatus c p) = suspended p ∧
     sent (refreshStatus c p) = sent p ++ display_frames p c unknown "Configure") ∧
  (githubToken s ≠ "" ∧ owner s ≠ "" ∧ repo s ≠ "" →
     requests (refreshStatus c p)
     = requests p ++ [request_options (githubToken s) (owner s) (repo s) (workflow s)] ∧
     suspended (refreshStatus c p) = suspended p ++ [fetch_pending c s]).
Proof.
  intros Hc s. split.
  - intros Hempty.
    assert (¬ configured s) as Hs by (unfold configured; tauto).
    rewrite (refreshStatus_unconfigured c p instance Hc Hs).
    destruct (updateDisplay_frame c unknown "Configure" p) as (_ & _ & _ & _ & _ & -> & ->).
    by rewrite updateDisplay_sent.
  - intros Hfull. by rewrite (refreshStatus_configured c p instance Hc Hfull).
Qed.

(** *** The continuation of a refresh *)

Lemma send_with_fetches d rs ks p :
  send d (with_fetches rs ks p) = with_fetches rs ks (send d p).
Proof. unfold send. simpl. destruct (websocket p) as [[]|]; reflexivity. Qed.

Lemma updateDisplay_with_fetches c st title rs ks p :
  updateDisplay c st title (with_fetches rs ks p)
  = with_fetches rs ks (updateDisplay c st title p).
Proof.
  unfold updateDisplay. simpl.
  destruct (imagesCache p !! statusKey st) as [image|]; [destruct (truthy image)|];
    by rewrite !send_with_fetches.
Qed.

Lemma display_frames_updateDisplay c st title p c' st' title' :
  display_frames (updateDisplay c st title p) c' st' title' = display_frames p c' st' title'.
Proof.
  unfold display_frames, is_open.
  destruct (updateDisplay_frame c st title p) as (-> & _ & -> & _). reflexivity.
Qed.

Section Resume.

Variable JSON_parse : string -> option GitHubActionsResponse.

Lemma refreshStatus_resume_display k o q result :
  fetchWorkflowStatus JSON_parse (fun _ => o) (s_token k) (s_owner k) (s_repo k) (s_workflow k)
    = inr result →
  refreshStatus_resume JSON_parse k o q
  = updateDisplay (s_context k) (res_status result) (result_title result) q.
Proof.
  intros Hfetch. unfold refreshStatus_resume, result_title. rewrite Hfetch.
  rewrite (GithubApiFacts.fetchWorkflowStatus_error_truthy _ _ _ _ _ _ _ Hfetch).
  destruct (res_error result); [reflexivity|].
  rewrite bool_decide_eq_false_2 by (by intros [? ?]).
  by destruct (res_status result).
Qed.

(** C10. A refresh of an active session whose credential, owner and repository
    are all non-empty first sets the display to [pending] with title
    "Loading..." and only then waits for the fetch; once the fetch has settled
    the display is set from its result, with title "Error" when the result
    carries an error (the zero-runs answer included) and the title of the
    status otherwise: "Success", "Failed", "Running" or "Unknown".  The
    refresh thus makes exactly these two display updates, in this order. *)
Theorem refreshStatus_two_display_updates c p instance :
  actions p !! c = Some instance →
  let s := settings instance in
  githubToken s ≠ "" → owner s ≠ "" → repo s ≠ "" →
  let loading := updateDisplay c pending "Loading..." p in
  refreshStatus c p
  = with_fetches (requests p ++ [fetch_request s]) (suspended p ++ [fetch_pending c s]) loading ∧
  ∀ o, ∃ result,
    fetchWorkflowStatus JSON_parse (fun _ => o)
      (githubToken s) (owner s) (repo s) (workflow s) = inr result ∧
    (∀ q, refreshStatus_resume JSON_parse (fetch_pending c s) o q
          = updateDisplay c (res_status result) (result_title result) q) ∧
    step JSON_parse (FetchSettled (length (suspended p)) o) (refreshStatus c p)
    = with_fetches (requests p ++ [fetch_request s]) (suspended p)
        (updateDisplay c (res_status result) (result_title result) loading) ∧
    sent (step JSON_parse (FetchSettled (length (suspended p)) o) (refreshStatus c p))
    = sent p ++ display_frames p c pending "Loading..."
             ++ display_frames p c (res_status result) (result_title result).
Proof.
  intros Hc s Ht Ho Hr loading.
  assert (configured s) as Hs by done.
  pose proof (refreshStatus_configured c p instance Hc Hs) as Hstart.
  split; [exact Hstart|].
  intros o.
  destruct (GithubApiFacts.fetchWorkflowStatus_returns JSON_parse (fun _ => o)
              (githubToken s) (owner s) (repo s) (workflow s)) as [result Hfetch].
  exists result. split; [exact Hfetch|].
  assert (∀ q, refreshStatus_resume JSON_parse (fetch_pending c s) o q
               = updateDisplay c (res_status result) (result_title result) q) as Hresume.
  { intros q. by apply (refreshStatus_resume_display (fetch_pending c s)). }
  split; [exact Hresume|].
  assert (step JSON_parse (FetchSettled (length (suspended p)) o) (refreshStatus c p)
          = with_fetches (requests p ++ [fetch_request s]) (suspended p)
              (updateDisplay c (res_status result) (result_title result) loading)) as Hstep.
  { rewrite Hstart. simpl.
    rewrite list_lookup_middle by done.
    rewrite Hresume, !updateDisplay_with_fetches.
    rewrite (delete_middle (suspended p) []), app_nil_r. reflexivity. }
  split; [exact Hstep|].
  rewrite Hstep. simpl. subst loading.
  by rewrite !updateDisplay_sent, display_frames_updateDisplay, app_assoc.
Qed.

End Resume.

(** *** Key presses *)

Lemma clear_press_insert c q instance :
  actions q !! c = Some instance →
  clear_press c q = with_actions (<[c := with_keyDownTime None instance]> (actions q)) q.
Proof.
  intros Hc. unfold clear_press. f_equal.
  apply map_eq. intros k. rewrite lookup_alter, lookup_insert.
  case_decide; subst; [by rewrite Hc|done].
Qed.

Lemma threshold_classifies (elapsed : Z) :
  (LONG_PRESS_THRESHOLD <=? elapsed) = bool_decide (classify_press elapsed = long).
Proof.
  unfold classify_press, LONG_PRESS_THRESHOLD.
  destruct (Z.leb_spec 500 elapsed); case_decide; try lia; done.
Qed.

Lemma handleKeyUp_resolves now c p instance :
  actions p !! c = Some instance →
  handleKeyUp now c p
  = clear_press c
      (resolve_gesture (classify_press (now - default 0 (keyDownTime instance))) instance c p).
Proof.
  intros Hc. unfold handleKeyUp. rewrite Hc, js_or_num_zero, threshold_classifies.
  destruct (classify_press _); simpl.
  - symmetry. apply clear_press_insert.
    by rewrite (proj1 (proj2 (refreshStatus_frame c p))).
  - symmetry. apply clear_press_insert.
    by rewrite (proj1 (proj2 (openGitHub_frame instance p))).
Qed.

Lemma display_frames_no_openUrl p c st title url :
  openUrl url ∉ display_frames p c st title.
Proof.
  unfold display_frames. destruct (is_open p); [|by apply not_elem_of_nil].
  destruct (imagesCache p !! statusKey st) as [image|]; [destruct (decide (image = ""))|];
    simpl; rewrite ?elem_of_cons, elem_of_nil; intuition discriminate.
Qed.

Lemma refreshStatus_sent c p instance :
  actions p !! c = Some instance →
  sent (refreshStatus c p)
  = sent p ++ (if decide (configured (settings instance))
               then display_frames p c pending "Loading..."
               else display_frames p c unknown "Configure").
Proof.
  intros Hc. destruct (decide (configured (settings instance))) as [Hs|Hs].
  - rewrite (refreshStatus_configured c p instance Hc Hs). simpl. apply updateDisplay_sent.
  - rewrite (refreshStatus_unconfigured c p instance Hc Hs). apply updateDisplay_sent.
Qed.

(** C3 (as amended). On a press-end for an existing session the gesture is a
    function of the elapsed time alone, where the elapsed time is counted from
    the stored press timestamp, or from 0 when none is stored: below 500 ms it is
    a short gesture (a refresh), from 500 ms on a long one (the URL is opened).
    So a press-begin at [t0] followed by a press-end at [now] is classified by
    [now - t0].  The stored timestamp is cleared after every such press-end, and a
    press-end for a key that has no session is ignored. *)
Theorem handleKeyUp_classifies_by_elapsed now c p :
  (∀ instance,
     actions p !! c = Some instance →
     handleKeyUp now c p
     = clear_press c
         (resolve_gesture (classify_press (now - default 0 (keyDownTime instance)))
            instance c p) ∧
     keyDownTime <$> (actions (handleKeyUp now c p) !! c) = Some None) ∧
  (∀ instance t0,
     actions p !! c = Some instance →
     handleKeyUp now c (handleKeyDown t0 c p)
     = clear_press c
         (resolve_gesture (classify_press (now - t0))
            (with_keyDownTime (Some t0) instance) c (handleKeyDown t0 c p))) ∧
  (actions p !! c = None → handleKeyUp now c p = p).
Proof.
  split; [|split].
  - intros instance Hc. split; [by apply handleKeyUp_resolves|].
    unfold handleKeyUp. rewrite Hc. simpl. by rewrite lookup_insert_eq.
  - intros instance t0 Hc.
    assert (actions (handleKeyDown t0 c p) !! c = Some (with_keyDownTime (Some t0) instance))
      as Hdown.
    { unfold handleKeyDown. rewrite Hc. simpl. by rewrite lookup_insert_eq. }
    by rewrite (handleKeyUp_resolves now c _ _ Hdown).
  - intros Hc. unfold handleKeyUp. by rewrite Hc.
Qed.

(** C8 (as amended). With the socket open, a long-press gesture on a session
    writes exactly one frame, an open-url command, and starts no refresh (no
    display update, no request).  Its URL is built from the settings of the
    session, not read off a fetched run: the actions page
    https://github.com/OWNER/REPO/actions of the repository when no workflow
    filter is set, and that page followed by /workflows/WORKFLOW when one is.
    A short-press gesture writes no open-url command and performs one refresh:
    the display update to [unknown] with title "Configure" and no request when
    the credential, the owner or the repository is empty, and otherwise the
    display update to [pending] with title "Loading..." and exactly one request
    for the settings of the session. *)
Theorem long_press_opens_settings_url now c p instance :
  actions p !! c = Some instance →
  websocket p = Some OPEN →
  let s := settings instance in
  let gesture := classify_press (now - default 0 (keyDownTime instance)) in
  let p' := handleKeyUp now c p in
  (gesture = long →
     requests p' = requests p ∧ suspended p' = suspended p ∧
     (workflow s = None ∨ workflow s = Some ""%string →
        sent p'
        = sent p ++ [openUrl ("https://github.com/" ++ owner s ++ "/" ++ repo s
                              ++ "/actions")%string]) ∧
     (∀ w, workflow s = Some w → w ≠ ""%string →
        sent p'
        = sent p ++ [openUrl ("https://github.com/" ++ owner s ++ "/" ++ repo s
                              ++ "/actions/workflows/" ++ w)%string])) ∧
  (gesture = short →
     (∃ frames, sent p' = sent p ++ frames ∧ ∀ url, openUrl url ∉ frames) ∧
     (githubToken s = ""%string ∨ owner s = ""%string ∨ repo s = ""%string →
        sent p' = sent p ++ display_frames p c unknown "Configure" ∧
        requests p' = requests p ∧ suspended p' = suspended p) ∧
     (githubToken s ≠ ""%string ∧ owner s ≠ ""%string ∧ repo s ≠ ""%string →
        sent p' = sent p ++ display_frames p c pending "Loading..." ∧
        requests p'
        = requests p ++ [request_options (githubToken s) (owner s) (repo s) (workflow s)] ∧
        suspended p' = suspended p ++ [fetch_pending c s])).
Proof.
  intros Hc Hopen s gesture p'. subst p'.
  rewrite (handleKeyUp_resolves now c p instance Hc). fold gesture.
  assert (is_open p = true) as Hwire by (unfold is_open; by rewrite Hopen).
  split; intros ->; simpl.
  - destruct (openGitHub_frame instance p) as (_ & _ & _ & _ & _ & -> & ->).
    split; [done|]. split; [done|]. split.
    + intros Hw. by rewrite (openGitHub_sent_repository instance p Hw), Hwire.
    + intros w Hw Hne. by rewrite (openGitHub_sent_workflow instance p w Hw Hne), Hwire.
  - split; [|split].
    + eexists. split; [by apply refreshStatus_sent|].
      intros url. destruct (decide _); apply display_frames_no_openUrl.
    + intros Hempty.
      assert (¬ configured s) as Hs by (unfold configured; tauto).
      rewrite (refreshStatus_unconfigured c p instance Hc Hs).
      destruct (updateDisplay_frame c unknown "Configure" p) as (_ & _ & _ & _ & _ & -> & ->).
      by rewrite updateDisplay_sent.
    + intros Hfull.
      rewrite (refreshStatus_configured c p instance Hc Hfull). simpl.
      by rewrite updateDisplay_sent.
Qed.

(** *** The refresh timer *)

Lemma startRefreshTimer_intervals c p instance :
  actions p !! c = Some instance →
  intervals (startRefreshTimer c p)
  = intervals p ++ [{| handle := next_handle p; callback_context := c;
                       delay := period_seconds (refreshInterval (settings instance)) * 1000 |}].
Proof.
  intros Hc. unfold startRefreshTimer. rewrite Hc. simpl. by rewrite js_or_num_period.
Qed.

(** C9 (as amended). The delay that [startRefreshTimer] hands to [setInterval]
    for a session is 1000 ms times the configured refresh interval when that is
    present and not zero, and 60 000 ms when the interval is absent or zero; the
    default settings carry 60.  No minimum is enforced: the delay is at least
    1000 ms exactly when the interval is absent, zero, or at least 1. *)
Theorem startRefreshTimer_period c p instance :
  actions p !! c = Some instance →
  let configured_interval := refreshInterval (settings instance) in
  (∃ t, intervals (startRefreshTimer c p) = intervals p ++ [t] ∧
        handle t = next_handle p ∧ callback_context t = c ∧
        delay t = period_seconds configured_interval * 1000 ∧
        (configured_interval = None ∨ configured_interval = Some 0 → delay t = 60000) ∧
        (∀ n, configured_interval = Some n → n ≠ 0 → delay t = n * 1000) ∧
        (∀ n, configured_interval = Some n → 1 ≤ n → 1000 ≤ delay t) ∧
        (1000 ≤ delay t
         ↔ configured_interval = None ∨ configured_interval = Some 0 ∨
           ∃ n, configured_interval = Some n ∧ 1 ≤ n)) ∧
  refreshInterval getDefaultSettings = Some 60.
Proof.
  intros Hc interval. split; [|reflexivity].
  eexists. split; [by apply startRefreshTimer_intervals|]. simpl. fold interval.
  repeat split.
  - by intros [-> | ->].
  - intros n -> Hn. simpl. by rewrite decide_False.
  - intros n -> Hn. simpl. rewrite decide_False by lia. lia.
  - destruct interval as [n|]; simpl; [|by left].
    destruct (decide (n = 0)) as [->|Hn]; [by right; left|].
    intros Hdelay. right. right. exists n. split; [done|lia].
  - intros [->|[->|(n & -> & Hn)]]; simpl; [lia|lia|].
    rewrite decide_False by lia. lia.
Qed.

(** *** Timers are only cleared or created under fresh handles *)

Lemma fresh_growth_refl p : fresh_growth p p.
Proof. split; [lia|by left]. Qed.

Lemma fresh_growth_trans p q r : fresh_growth p q → fresh_growth q r → fresh_growth p r.
Proof.
  intros [Hpq Hq] [Hqr Hr]. split; [lia|].
  intros t Ht. destruct (Hr t Ht) as [Htq|Hfresh]; [by apply Hq|right; lia].
Qed.

Lemma fresh_growth_same p q :
  intervals q = intervals p → next_handle q = next_handle p → fresh_growth p q.
Proof. intros Hi Hn. split; [lia|]. intros t. rewrite Hi. by left. Qed.

Lemma fresh_growth_with_actions a p q :
  fresh_growth p q → fresh_growth p (with_actions a q).
Proof. intros H. eapply fresh_growth_trans; [exact H|by apply fresh_growth_same]. Qed.

Lemma fresh_growth_clearInterval h p : fresh_growth p (clearInterval h p).
Proof.
  split; [simpl; lia|]. intros t. simpl. rewrite list_elem_of_filter. intros [_ Ht]. by left.
Qed.

Lemma fresh_growth_startRefreshTimer c p : fresh_growth p (startRefreshTimer c p).
Proof.
  unfold startRefreshTimer. destruct (actions p !! c) as [instance|];
    [|apply fresh_growth_refl].
  split; [simpl; lia|]. intros t. simpl. rewrite elem_of_app, list_elem_of_singleton.
  intros [Ht| ->]; [by left|right; simpl; lia].
Qed.

Lemma fresh_growth_stopRefreshTimer c p : fresh_growth p (stopRefreshTimer c p).
Proof.
  unfold stopRefreshTimer. destruct (actions p !! c) as [instance|];
    [|apply fresh_growth_refl].
  destruct (refreshTimer instance) as [h|]; [|apply fresh_growth_refl].
  apply (fresh_growth_trans _ (clearInterval h p)); [apply fresh_growth_clearInterval|].
  by apply fresh_growth_same.
Qed.

Lemma fresh_growth_refreshStatus c p : fresh_growth p (refreshStatus c p).
Proof.
  destruct (refreshStatus_frame c p) as (_ & _ & _ & Hi & Hn). by apply fresh_growth_same.
Qed.

Lemma fresh_growth_updateDisplay c st title p : fresh_growth p (updateDisplay c st title p).
Proof.
  destruct (updateDisplay_frame c st title p) as (_ & _ & _ & Hi & Hn & _).
  by apply fresh_growth_same.
Qed.

Lemma fresh_growth_handleMessage now message p : fresh_growth p (handleMessage now message p).
Proof.
  destruct message as [c payload|c|c|c|c payload|event]; simpl.
  - unfold handleWillAppear.
    eapply fresh_growth_trans; [|apply fresh_growth_refreshStatus].
    eapply fresh_growth_trans; [|apply fresh_growth_startRefreshTimer].
    by apply fresh_growth_same.
  - unfold handleWillDisappear. apply fresh_growth_with_actions.
    destruct (actions p !! c) as [instance|]; [|apply fresh_growth_refl].
    destruct (refreshTimer instance); [apply fresh_growth_clearInterval|apply fresh_growth_refl].
  - unfold handleKeyDown. destruct (actions p !! c); [by apply fresh_growth_same|].
    apply fresh_growth_refl.
  - unfold handleKeyUp. destruct (actions p !! c) as [instance|]; [|apply fresh_growth_refl].
    apply fresh_growth_with_actions.
    destruct (_ <=? _); [|apply fresh_growth_refreshStatus].
    destruct (openGitHub_frame instance p) as (_ & _ & _ & Hi & Hn & _).
    by apply fresh_growth_same.
  - unfold handleDidReceiveSettings.
    destruct (actions p !! c) as [instance|]; [|apply fresh_growth_refl].
    eapply fresh_growth_trans; [|apply fresh_growth_refreshStatus].
    eapply fresh_growth_trans; [|apply fresh_growth_startRefreshTimer].
    eapply fresh_growth_trans; [|apply fresh_growth_stopRefreshTimer].
    by apply fresh_growth_same.
  - apply fresh_growth_refl.
Qed.

Lemma cancelled_fresh_growth h p q : fresh_growth p q → cancelled h p → cancelled h q.
Proof.
  intros [Hn Hq] [Hh Hlive]. split; [lia|].
  unfold live_handles in *. rewrite list_elem_of_fmap in *.
  intros (t & -> & Ht). destruct (Hq t Ht) as [Hp|Hfresh]; [|lia].
  apply Hlive. by exists t.
Qed.

Lemma list_find_cancelled h p :
  h ∉ live_handles p → list_find (fun t => handle t = h) (intervals p) = None.
Proof.
  intros Hlive. apply list_find_None, Forall_forall. intros t Ht Hh.
  apply Hlive. unfold live_handles. rewrite list_elem_of_fmap. by exists t.
Qed.

(** *** What changes the settings of a session *)

Lemma settings_of_startRefreshTimer k c p :
  settings_of k (startRefreshTimer c p) = settings_of k p.
Proof.
  unfold settings_of, startRefreshTimer. destruct (actions p !! c) as [instance|] eqn:Hc;
    [|done].
  simpl. rewrite lookup_insert. case_decide; subst; by rewrite ?Hc.
Qed.

Lemma settings_of_stopRefreshTimer k c p :
  settings_of k (stopRefreshTimer c p) = settings_of k p.
Proof.
  unfold settings_of, stopRefreshTimer. destruct (actions p !! c) as [instance|] eqn:Hc;
    [|done].
  destruct (refreshTimer instance); [|done].
  simpl. rewrite lookup_insert. case_decide; subst; by rewrite ?Hc.
Qed.

Lemma settings_of_refreshStatus k c p : settings_of k (refreshStatus c p) = settings_of k p.
Proof. unfold settings_of. by rewrite (proj1 (proj2 (refreshStatus_frame c p))). Qed.

Lemma settings_of_handleMessage k now message p :
  ¬ readdresses k (Receive now message) →
  settings_of k (handleMessage now message p) = settings_of k p.
Proof.
  destruct message as [c payload|c|c|c|c payload|event]; simpl; intros Hk.
  - unfold handleWillAppear.
    rewrite settings_of_refreshStatus, settings_of_startRefreshTimer.
    unfold settings_of. simpl. by rewrite lookup_insert_ne.
  - unfold handleWillDisappear, settings_of. simpl.
    rewrite lookup_delete_ne by done.
    destruct (actions p !! c) as [instance|]; [|done]. by destruct (refreshTimer instance).
  - unfold handleKeyDown, settings_of. destruct (actions p !! c) as [instance|] eqn:Hc; [|done].
    simpl. rewrite lookup_insert. case_decide; subst; by rewrite ?Hc.
  - unfold handleKeyUp, settings_of. destruct (actions p !! c) as [instance|] eqn:Hc; [|done].
    simpl. rewrite lookup_insert. case_decide; subst; simpl.
    + by rewrite Hc.
    + destruct (_ <=? _).
      * by rewrite (proj1 (proj2 (openGitHub_frame instance p))).
      * by rewrite (proj1 (proj2 (refreshStatus_frame c p))).
  - unfold handleDidReceiveSettings. destruct (actions p !! c) as [instance|] eqn:Hc; [|done].
    rewrite settings_of_refreshStatus, settings_of_startRefreshTimer,
      settings_of_stopRefreshTimer.
    unfold settings_of. simpl. by rewrite lookup_insert_ne.
  - done.
Qed.

Section Scheduler.

Variable JSON_parse : string -> option GitHubActionsResponse.

Lemma refreshStatus_resume_frame k o p :
  actions (refreshStatus_resume JSON_parse k o p) = actions p ∧
  intervals (refreshStatus_resume JSON_parse k o p) = intervals p ∧
  next_handle (refreshStatus_resume JSON_parse k o p) = next_handle p.
Proof.
  unfold refreshStatus_resume. destruct (fetchWorkflowStatus _ _ _ _ _ _) as [e|result]; [done|].
  destruct (updateDisplay_frame (s_context k) (res_status result)
              (if truthy_opt (res_error result) then "Error"
               else formatStatusText (res_status result)) p)
    as (_ & ? & _ & ? & ? & _).
  done.
Qed.

Lemma run_cons e events p :
  run JSON_parse (e :: events) p = run JSON_parse events (step JSON_parse e p).
Proof. reflexivity. Qed.

Lemma fresh_growth_step e p : fresh_growth p (step JSON_parse e p).
Proof.
  destruct e as [ | |now message|h|i o]; simpl.
  - destruct (websocket p) as [[]|]; try apply fresh_growth_refl.
    destruct (send_frame (register (registerEvent p) (pluginUUID p))
                (with_websocket (Some OPEN) p))
      as (_ & _ & _ & Hi & Hn & _).
    by apply fresh_growth_same.
  - destruct (websocket p); [by apply fresh_growth_same|apply fresh_growth_refl].
  - apply fresh_growth_handleMessage.
  - destruct (list_find _ _) as [[? t]|]; [apply fresh_growth_refreshStatus|].
    apply fresh_growth_refl.
  - destruct (suspended p !! i) as [k|]; [|apply fresh_growth_refl].
    destruct (refreshStatus_resume_frame k o
                (with_fetches (requests p) (delete i (suspended p)) p)) as (_ & Hi & Hn).
    by apply fresh_growth_same.
Qed.

Lemma fresh_growth_run events p : fresh_growth p (run JSON_parse events p).
Proof.
  revert p. induction events as [|e events IH]; intros p; [apply fresh_growth_refl|].
  rewrite run_cons. eapply fresh_growth_trans; [apply fresh_growth_step|apply IH].
Qed.

Lemma settings_of_step k e p :
  ¬ readdresses k e → settings_of k (step JSON_parse e p) = settings_of k p.
Proof.
  destruct e as [ | |now message|h|i o]; simpl; intros Hk.
  - by destruct (websocket p) as [[]|].
  - by destruct (websocket p).
  - by apply settings_of_handleMessage.
  - destruct (list_find _ _) as [[? t]|]; [apply settings_of_refreshStatus|done].
  - destruct (suspended p !! i) as [s|]; [|done]. unfold settings_of.
    by rewrite (proj1 (refreshStatus_resume_frame _ _ _)).
Qed.

Lemma settings_of_run k events p :
  Forall (fun e => ¬ readdresses k e) events →
  settings_of k (run JSON_parse events p) = settings_of k p.
Proof.
  revert p. induction events as [|e events IH]; intros p Hall; [done|].
  inversion Hall as [|? ? He Hrest]; subst.
  rewrite run_cons, IH by done. by apply settings_of_step.
Qed.

Lemma refreshStatus_fetches c p instance :
  actions p !! c = Some instance →
  requests (refreshStatus c p)
  = requests p ++ (if decide (configured (settings instance))
                   then [fetch_request (settings instance)] else []) ∧
  suspended (refreshStatus c p)
  = suspended p ++ (if decide (configured (settings instance))
                    then [fetch_pending c (settings instance)] else []).
Proof.
  intros Hc. destruct (decide (configured (settings instance))) as [Hs|Hs].
  - by rewrite (refreshStatus_configured c p instance Hc Hs).
  - rewrite (refreshStatus_unconfigured c p instance Hc Hs), !app_nil_r.
    by destruct (updateDisplay_frame c unknown "Configure" p) as (_ & _ & _ & _ & _ & -> & ->).
Qed.

Lemma handleDidReceiveSettings_swap c s p instance h :
  actions p !! c = Some instance →
  refreshTimer instance = Some h →
  handleDidReceiveSettings c s p
  = refreshStatus c
      (with_actions
         (<[c := {| context := context instance; settings := s;
                    refreshTimer := Some (next_handle p);
                    keyDownTime := keyDownTime instance |}]> (actions p))
         (with_timers
            (filter (fun t => handle t ≠ h) (intervals p)
             ++ [{| handle := next_handle p; callback_context := c;
                    delay := period_seconds (refreshInterval s) * 1000 |}])
            (S (next_handle p)) p)).
Proof.
  intros Hc Ht. unfold handleDidReceiveSettings. rewrite Hc. f_equal.
  unfold stopRefreshTimer. simpl. rewrite lookup_insert_eq. simpl. rewrite Ht.
  unfold startRefreshTimer. simpl. rewrite lookup_insert_eq. simpl.
  by rewrite !insert_insert_eq, js_or_num_period.
Qed.

(** C5. A settings-changed event for an active session cancels the session's
    timer (it is never live again, so it never fires again), schedules exactly
    one new timer, at the interval of the new settings, and starts exactly one
    refresh, which reads the new settings; and as long as no further appear,
    disappear or settings-changed event reaches the session, every refresh
    started later reads the new settings as well. *)
Theorem handleDidReceiveSettings_restarts_timer c s p instance h :
  actions p !! c = Some instance →
  refreshTimer instance = Some h →
  (h < next_handle p)%nat →
  let p' := handleDidReceiveSettings c s p in
  intervals p'
  = filter (fun t => handle t ≠ h) (intervals p)
    ++ [{| handle := next_handle p; callback_context := c;
           delay := period_seconds (refreshInterval s) * 1000 |}] ∧
  actions p' !! c
  = Some {| context := context instance; settings := s;
            refreshTimer := Some (next_handle p);
            keyDownTime := keyDownTime instance |} ∧
  requests p' = requests p ++ (if decide (configured s) then [fetch_request s] else []) ∧
  suspended p' = suspended p ++ (if decide (configured s) then [fetch_pending c s] else []) ∧
  sent p' = sent p ++ (if decide (configured s)
                       then display_frames p c pending "Loading..."
                       else display_frames p c unknown "Configure") ∧
  (∀ events,
     let q := run JSON_parse events p' in
     (h ∉ live_handles q) ∧ step JSON_parse (TimerFire h) q = q) ∧
  (∀ events,
     Forall (fun e => ¬ readdresses c e) events →
     let q := run JSON_parse events p' in
     settings_of c q = Some s ∧
     requests (refreshStatus c q)
     = requests q ++ (if decide (configured s) then [fetch_request s] else [])).
Proof.
  intros Hc Ht Hh p'. subst p'.
  rewrite (handleDidReceiveSettings_swap c s p instance h Hc Ht).
  set (instance' := {| context := context instance; settings := s;
                       refreshTimer := Some (next_handle p);
                       keyDownTime := keyDownTime instance |}).
  set (p3 := with_actions _ _).
  assert (actions p3 !! c = Some instance') as Hc3 by (subst p3; simpl; apply lookup_insert_eq).
  destruct (refreshStatus_frame c p3) as (_ & Ha & _ & Hi & Hn).
  destruct (refreshStatus_fetches c p3 instance' Hc3) as [Hreq Hsusp].
  split; [by rewrite Hi|].
  split; [by rewrite Ha|].
  split; [exact Hreq|].
  split; [exact Hsusp|].
  split; [by rewrite (refreshStatus_sent c p3 instance' Hc3)|].
  assert (cancelled h (refreshStatus c p3)) as Hcancelled.
  { split; [rewrite Hn; simpl; lia|].
    unfold live_handles. rewrite Hi. simpl.
    rewrite fmap_app, elem_of_app. intros [Hold|Hnew].
    - apply list_elem_of_fmap in Hold as (t & -> & Hlive).
      apply list_elem_of_filter in Hlive. by destruct Hlive.
    - apply list_elem_of_singleton in Hnew. simpl in Hnew. lia. }
  split.
  - intros events q.
    destruct (cancelled_fresh_growth h _ q (fresh_growth_run events _) Hcancelled)
      as [_ Hlive].
    split; [exact Hlive|]. simpl. by rewrite list_find_cancelled.
  - intros events Hall q.
    assert (settings_of c q = Some s) as Hq.
    { subst q. rewrite settings_of_run by done.
      unfold settings_of. by rewrite Ha, Hc3. }
    split; [exact Hq|].
    unfold settings_of in Hq. destruct (actions q !! c) as [i|] eqn:Hcq; [|done].
    injection Hq as <-. apply (refreshStatus_fetches c q i Hcq).
Qed.

(** *** Sessions of a running plugin hold a timer *)

Lemma tracked_mono m n n' : (n ≤ n')%nat → tracked m n → tracked m n'.
Proof. intros Hn Hm c i Hc. destruct (Hm c i Hc) as (h & ? & ?). exists h. split; [done|lia]. Qed.

Lemma tracked_insert m n c i h :
  tracked m n → refreshTimer i = Some h → (h < n)%nat → tracked (<[c := i]> m) n.
Proof.
  intros Hm Hi Hh k j. rewrite lookup_insert. case_decide; subst.
  - intros [= <-]. by exists h.
  - apply Hm.
Qed.

Lemma tracked_delete m n c : tracked m n → tracked (delete c m) n.
Proof.
  intros Hm k j. rewrite lookup_delete. case_decide; subst; [done|apply Hm].
Qed.

Lemma managed_refreshStatus c p : managed p → managed (refreshStatus c p).
Proof.
  unfold managed. by destruct (refreshStatus_frame c p) as (_ & -> & _ & _ & ->).
Qed.

Lemma managed_handleMessage now message p : managed p → managed (handleMessage now message p).
Proof.
  unfold managed. intros Hp.
  destruct message as [c payload|c|c|c|c payload|event]; simpl.
  - apply managed_refreshStatus. unfold managed, startRefreshTimer. simpl.
    rewrite lookup_insert_eq. simpl. rewrite insert_insert_eq.
    eapply tracked_insert; [|reflexivity|lia].
    eapply tracked_mono; [|exact Hp]. lia.
  - unfold handleWillDisappear. simpl. apply tracked_delete.
    destruct (actions p !! c) as [instance|]; [|done].
    by destruct (refreshTimer instance).
  - unfold handleKeyDown. destruct (actions p !! c) as [instance|] eqn:Hc; [|done].
    destruct (Hp c instance Hc) as (h & Ht & Hh). simpl.
    by apply (tracked_insert _ _ _ _ h).
  - unfold handleKeyUp. destruct (actions p !! c) as [instance|] eqn:Hc; [|done].
    destruct (Hp c instance Hc) as (h & Ht & Hh). simpl.
    destruct (_ <=? _).
    + destruct (openGitHub_frame instance p) as (_ & -> & _ & _ & -> & _).
      by apply (tracked_insert _ _ _ _ h).
    + destruct (refreshStatus_frame c p) as (_ & -> & _ & _ & ->).
      by apply (tracked_insert _ _ _ _ h).
  - destruct (actions p !! c) as [instance|] eqn:Hc;
      [|unfold handleDidReceiveSettings; by rewrite Hc].
    destruct (Hp c instance Hc) as (h & Ht & Hh).
    rewrite (handleDidReceiveSettings_swap c payload p instance h Hc Ht).
    apply managed_refreshStatus. unfold managed. simpl.
    eapply tracked_insert; [|reflexivity|lia].
    eapply tracked_mono; [|exact Hp]. lia.
  - exact Hp.
Qed.

(** *** One timer per session, as long as no active key appears again *)

Lemma filter_swap {A} (P Q : A → Prop) `{!∀ x, Decision (P x), !∀ x, Decision (Q x)}
  (l : list A) :
  filter P (filter Q l) = filter Q (filter P l).
Proof. rewrite !list_filter_filter. apply list_filter_iff. tauto. Qed.

Lemma orderly_at_alter m l n c f :
  (∀ i, refreshTimer (f i) = refreshTimer i ∧ settings (f i) = settings i) →
  orderly_at m l n → orderly_at (alter f c m) l n.
Proof.
  intros Hf (Htimers & Htracked & Hdistinct).
  assert (∀ k j, alter f c m !! k = Some j →
                 ∃ i, m !! k = Some i ∧ refreshTimer j = refreshTimer i ∧
                      settings j = settings i) as Hback.
  { intros k j. rewrite lookup_alter. case_decide; subst.
    - destruct (m !! k) as [i|]; [|done]. intros [= <-]. exists i.
      by destruct (Hf i).
    - intros Hk. by exists j. }
  split; [|split].
  - intros k. rewrite Htimers, lookup_alter. case_decide; subst; [|done].
    destruct (m !! k) as [i|]; [|done]. simpl. unfold session_timer.
    by destruct (Hf i) as [-> ->].
  - intros k j Hk. destruct (Hback k j Hk) as (i & Hi & -> & _). by apply (Htracked k).
  - intros k k' j j' h Hk Hk' Hj Hj'.
    destruct (Hback k j Hk) as (i & Hi & Ht & _).
    destruct (Hback k' j' Hk') as (i' & Hi' & Ht' & _).
    apply (Hdistinct k k' i i' h); congruence.
Qed.

Lemma orderly_at_appear m l n c ctx s kd :
  m !! c = None →
  orderly_at m l n →
  orderly_at
    (<[c := {| context := ctx; settings := s; refreshTimer := Some n; keyDownTime := kd |}]> m)
    (l ++ [{| handle := n; callback_context := c;
              delay := period_seconds (refreshInterval s) * 1000 |}])
    (S n).
Proof.
  intros Hc (Htimers & Htracked & Hdistinct). split; [|split].
  - intros k. rewrite filter_app, Htimers, (filter_singleton _ _ []), lookup_insert. simpl.
    destruct (decide (c = k)) as [<-|Hne].
    + by rewrite Hc.
    + by rewrite app_nil_r.
  - apply (tracked_insert _ _ _ _ n); [|done|lia].
    eapply tracked_mono; [|exact Htracked]. lia.
  - intros k k' i i' h. rewrite !lookup_insert.
    destruct (decide (c = k)) as [<-|Hk]; destruct (decide (c = k')) as [<-|Hk']; [done| | |].
    + intros [= <-] Hi' [= <-] Ht'.
      destruct (Htracked k' i' Hi') as (h' & ? & ?). simplify_eq. lia.
    + intros Hi [= <-] Ht [= <-].
      destruct (Htracked k i Hi) as (h' & ? & ?). simplify_eq. lia.
    + apply Hdistinct.
Qed.

Lemma orderly_at_disappear m l n c :
  orderly_at m l n →
  orderly_at (delete c m)
    match m !! c with
    | Some i =>
        match refreshTimer i with
        | Some h => filter (fun t => handle t ≠ h) l
        | None => l
        end
    | None => l
    end n.
Proof.
  intros (Htimers & Htracked & Hdistinct).
  destruct (m !! c) as [i|] eqn:Hc; [|by rewrite delete_id].
  destruct (Htracked c i Hc) as (h & Ht & Hh). rewrite Ht.
  split; [|split].
  - intros k. rewrite filter_swap, Htimers, lookup_delete.
    destruct (decide (c = k)) as [<-|Hne].
    + rewrite Hc. unfold session_timer. rewrite Ht, (filter_singleton _ _ []).
      by rewrite decide_False by (intros H; by apply H).
    + destruct (m !! k) as [i'|] eqn:Hk; [|done].
      destruct (Htracked k i' Hk) as (h' & Ht' & Hh').
      unfold session_timer. rewrite Ht', (filter_singleton _ _ []), decide_True; [done|].
      simpl. intros ->. by apply Hne, (Hdistinct c k i i' h).
  - by apply tracked_delete.
  - intros k k' j j' h'. rewrite !lookup_delete.
    repeat case_decide; try done. apply Hdistinct.
Qed.

Lemma orderly_at_swap m l n c i h s :
  m !! c = Some i → refreshTimer i = Some h →
  orderly_at m l n →
  orderly_at
    (<[c := {| context := context i; settings := s; refreshTimer := Some n;
               keyDownTime := keyDownTime i |}]> m)
    (filter (fun t => handle t ≠ h) l
     ++ [{| handle := n; callback_context := c;
            delay := period_seconds (refreshInterval s) * 1000 |}])
    (S n).
Proof.
  intros Hc Ht Hm. pose proof (orderly_at_disappear m l n c Hm) as Hgone.
  rewrite Hc, Ht in Hgone. rewrite <- (insert_delete_eq m).
  apply orderly_at_appear; [apply lookup_delete_eq|exact Hgone].
Qed.

Lemma alter_keyDownTime_id c t (m : gmap string ActionInstance) instance :
  m !! c = Some instance →
  <[c := with_keyDownTime t instance]> m = alter (with_keyDownTime t) c m.
Proof.
  intros Hc. apply map_eq. intros k. rewrite lookup_alter, lookup_insert.
  case_decide; subst; [by rewrite Hc|done].
Qed.

Lemma orderly_handleMessage now message p :
  ¬ reappears p (Receive now message) →
  orderly p → orderly (handleMessage now message p).
Proof.
  unfold orderly. intros Hfresh Hp.
  destruct message as [c payload|c|c|c|c payload|event]; simpl in *.
  - unfold handleWillAppear.
    destruct (refreshStatus_frame c
                (startRefreshTimer c
                   (with_actions
                      (<[c := {| context := c;
                                 settings := match payload with
                                             | Some s => s
                                             | None => getDefaultSettings
                                             end;
                                 refreshTimer := None; keyDownTime := None |}]>
                         (actions p)) p)))
      as (_ & -> & _ & -> & ->).
    unfold startRefreshTimer. simpl. rewrite lookup_insert_eq. simpl.
    rewrite insert_insert_eq, js_or_num_period.
    apply orderly_at_appear; [|exact Hp].
    destruct (actions p !! c) eqn:Hc; [|done]. exfalso. apply Hfresh. by eexists.
  - unfold handleWillDisappear. simpl.
    pose proof (orderly_at_disappear _ _ _ c Hp) as Hgone.
    destruct (actions p !! c) as [instance|]; [|exact Hgone].
    destruct (refreshTimer instance); exact Hgone.
  - unfold handleKeyDown. destruct (actions p !! c) as [instance|] eqn:Hc; [|exact Hp].
    simpl. rewrite (alter_keyDownTime_id c _ _ instance Hc).
    by apply orderly_at_alter.
  - unfold handleKeyUp. destruct (actions p !! c) as [instance|] eqn:Hc; [|exact Hp].
    simpl. destruct (_ <=? _).
    + destruct (openGitHub_frame instance p) as (_ & -> & _ & -> & -> & _).
      rewrite (alter_keyDownTime_id c _ _ instance Hc). by apply orderly_at_alter.
    + destruct (refreshStatus_frame c p) as (_ & -> & _ & -> & ->).
      rewrite (alter_keyDownTime_id c _ _ instance Hc). by apply orderly_at_alter.
  - destruct (actions p !! c) as [instance|] eqn:Hc;
      [|unfold handleDidReceiveSettings; by rewrite Hc].
    destruct (proj1 (proj2 Hp) c instance Hc) as (h & Ht & Hh).
    rewrite (handleDidReceiveSettings_swap c payload p instance h Hc Ht).
    match goal with
    | |- context [refreshStatus c ?q] =>
        destruct (refreshStatus_frame c q) as (_ & -> & _ & -> & ->)
    end.
    simpl. by apply orderly_at_swap.
  - exact Hp.
Qed.

Lemma managed_step e p : managed p → managed (step JSON_parse e p).
Proof.
  intros Hp. destruct e as [ | |now message|h|i o]; simpl.
  - by destruct (websocket p) as [[]|].
  - by destruct (websocket p).
  - by apply managed_handleMessage.
  - destruct (list_find _ _) as [[? t]|]; [by apply managed_refreshStatus|done].
  - destruct (suspended p !! i) as [k|]; [|done]. unfold managed.
    by destruct (refreshStatus_resume_frame k o
                   (with_fetches (requests p) (delete i (suspended p)) p)) as (-> & _ & ->).
Qed.

(** X20. In every state the plugin reaches, each session of the map holds the
    handle of a timer the runtime gave out. *)
Lemma managed_run uuid registerEvent images events :
  managed (run JSON_parse events (connect uuid registerEvent (new_StreamDeckPlugin images))).
Proof.
  assert (managed (connect uuid registerEvent (new_StreamDeckPlugin images))) as Hinit.
  { intros c i Hc. simpl in Hc. by rewrite lookup_empty in Hc. }
  revert Hinit. generalize (connect uuid registerEvent (new_StreamDeckPlugin images)).
  induction events as [|e events IH]; intros p Hp; [exact Hp|].
  rewrite run_cons. by apply IH, managed_step.
Qed.

Lemma orderly_step e p :
  ¬ reappears p e → orderly p → orderly (step JSON_parse e p).
Proof.
  intros Hfresh Hp. destruct e as [ | |now message|h|i o]; simpl.
  - by destruct (websocket p) as [[]|].
  - by destruct (websocket p).
  - by apply orderly_handleMessage.
  - destruct (list_find _ _) as [[? t]|]; [|done]. unfold orderly.
    by destruct (refreshStatus_frame (callback_context t) p) as (_ & -> & _ & -> & ->).
  - destruct (suspended p !! i) as [k|]; [|done]. unfold orderly.
    by destruct (refreshStatus_resume_frame k o
                   (with_fetches (requests p) (delete i (suspended p)) p)) as (-> & -> & ->).
Qed.

Lemma orderly_run events p :
  no_reappear JSON_parse events p → orderly p → orderly (run JSON_parse events p).
Proof.
  revert p. induction events as [|e events IH]; intros p Hfresh Hp; [exact Hp|].
  destruct Hfresh as [He Hrest]. rewrite run_cons. by apply IH, orderly_step.
Qed.

(** X19. As long as no appear event arrives for a key whose session is active,
    the plugin keeps exactly one live timer for each session of the map and
    none for any other key. *)
Lemma one_timer_per_active_session uuid registerEvent images events c :
  no_reappear JSON_parse events (connect uuid registerEvent (new_StreamDeckPlugin images)) →
  let p := run JSON_parse events (connect uuid registerEvent (new_StreamDeckPlugin images)) in
  length (timers_of c p) = match actions p !! c with
                           | Some _ => 1%nat
                           | None => 0%nat
                           end.
Proof.
  intros Hfresh p.
  assert (orderly p) as (Htimers & Htracked & _).
  { apply orderly_run; [exact Hfresh|]. split; [|split].
    - intros k. simpl. by rewrite lookup_empty.
    - intros k i Hk. simpl in Hk. by rewrite lookup_empty in Hk.
    - intros k k' i i' h Hk. simpl in Hk. by rewrite lookup_empty in Hk. }
  unfold timers_of. rewrite Htimers.
  destruct (actions p !! c) as [i|] eqn:Hc; [|done].
  destruct (Htracked c i Hc) as (h & Ht & _). unfold session_timer. by rewrite Ht.
Qed.

End Scheduler.

(** *** The cases worked out on the sample plugin *)

(** C4 (the code at the failing input). When the button "key1" appears a
    second time while its session is active, the map still holds one session
    but two recurring timers refresh it; after the button disappears the session
    is gone and the first timer is still live. *)
Theorem second_appear_leaks_timer :
  size (actions appeared_twice) = 1%nat ∧
  length (timers_of "key1" appeared_twice) = 2%nat ∧
  size (actions (handleWillDisappear "key1" appeared_twice)) = 0%nat ∧
  timers_of "key1" (handleWillDisappear "key1" appeared_twice)
  = [{| handle := 0; callback_context := "key1"; delay := 30000 |}].
Proof. vm_compute. repeat split; reflexivity. Qed.

(** C3 (counterexample). The session "key1" has no press-begin recorded; a
    press-end at a clock value of 1 700 000 000 000 ms is not ignored: it writes the
    open-url command of a long gesture. *)
Lemma keyUp_without_keyDown_not_ignored :
  keyDownTime <$> (actions one_session !! "key1") = Some None ∧
  sent (handleKeyUp 1700000000000 "key1" one_session)
  = sent one_session ++ [openUrl "https://github.com/acme/widgets/actions"] ∧
  sent (handleKeyUp 1700000000000 "key1" one_session) ≠ sent one_session.
Proof.
  split; [vm_compute; reflexivity|].
  split; [vm_compute; reflexivity|].
  vm_compute. intros H. discriminate H.
Qed.

(** C9 (counterexample). A configured interval of -1 second starts a timer with
    a delay of -1000 ms: the value is handed to [setInterval] as it is, and it
    is below one second. *)
Lemma negative_interval_not_clamped :
  ∃ t, t ∈ intervals (handleWillAppear "key1" (Some negative_interval_settings) connected) ∧
       delay t = -1000 ∧ ¬ (1000 ≤ delay t).
Proof.
  exists {| handle := 0; callback_context := "key1"; delay := -1000 |}.
  split; [vm_compute; apply list_elem_of_here|]. split; [reflexivity|simpl; lia].
Qed.

(** Press-begin at 1000, press-end at 1200: classified by the 200 ms between them. *)
Lemma handleKeyUp_classifies_by_elapsed_witness :
  handleKeyUp 1200 "key1" (handleKeyDown 1000 "key1" one_session)
  = clear_press "key1"
      (resolve_gesture (classify_press (1200 - 1000))
         (with_keyDownTime (Some 1000) key1_instance) "key1"
         (handleKeyDown 1000 "key1" one_session)).
Proof.
  apply (handleKeyUp_classifies_by_elapsed 1200 "key1" one_session).
  reflexivity.
Defined.

(** C8 (counterexample). The last refresh of "key1" fetched run 42 and showed
    "Success"; the long press that follows opens the actions page of the
    repository, not the page of that run. *)
Lemma long_press_opens_actions_page_not_run :
  fetchWorkflowStatus MoreSamples.runs_parse MoreSamples.runs_request
    "t0ken" "acme" "widgets" None
  = inr {| res_status := success;
           res_name := "CI";
           res_url := "https://github.com/acme/widgets/actions/runs/42";
           res_branch := "main";
           res_updatedAt := None;
           res_error := None |} ∧
  sent MoreSamples.fetched_green
  = [register "registerPlugin" "com.example.plugin";
     setTitle "key1" "Loading..." 0; setTitle "key1" "Success" 0] ∧
  sent (handleKeyUp 1600 "key1" MoreSamples.fetched_green)
  = sent MoreSamples.fetched_green ++ [openUrl "https://github.com/acme/widgets/actions"] ∧
  openUrl "https://github.com/acme/widgets/actions"
  ≠ openUrl "https://github.com/acme/widgets/actions/runs/42".
Proof.
  split; [vm_compute; reflexivity|].
  split; [vm_compute; reflexivity|].
  split; [vm_compute; reflexivity|].
  intros H. discriminate H.
Qed.

(** Press-begin at 1000, press-end at 1600: the open-url frame and nothing else. *)
Lemma long_press_opens_settings_url_witness :
  sent (handleKeyUp 1600 "key1" (handleKeyDown 1000 "key1" one_session))
  = sent (handleKeyDown 1000 "key1" one_session)
    ++ [openUrl "https://github.com/acme/widgets/actions"].
Proof.
  apply (long_press_opens_settings_url 1600 "key1"
           (handleKeyDown 1000 "key1" one_session)
           (with_keyDownTime (Some 1000) key1_instance)).
  - reflexivity.
  - reflexivity.
  - reflexivity.
  - left. reflexivity.
Defined.

(** A session without a credential: a refresh issues no request. *)
Lemma refreshStatus_missing_settings_witness :
  requests (refreshStatus "key1" one_unconfigured_session)
  = requests one_unconfigured_session.
Proof.
  apply (refreshStatus_missing_settings "key1" one_unconfigured_session
           key1_unconfigured_instance).
  - reflexivity.
  - left. reflexivity.
Defined.

(** A second timer started for "key1" (interval 30) has a delay of 30 000 ms. *)
Lemma startRefreshTimer_period_witness :
  ∃ t, intervals (startRefreshTimer "key1" one_session) = intervals one_session ++ [t] ∧
       delay t = 30000.
Proof.
  destruct (startRefreshTimer_period "key1" one_session key1_instance)
    as [(t & Hintervals & _ & _ & _ & _ & Hdelay & _) _]; [reflexivity|].
  exists t. split; [exact Hintervals|]. apply (Hdelay 30); [reflexivity|lia].
Defined.

(** New settings for "key1": timer 0 is gone, timer 1 runs every 10 000 ms. *)
Lemma handleDidReceiveSettings_restarts_timer_witness :
  intervals (handleDidReceiveSettings "key1" new_settings one_session)
  = [{| handle := 1; callback_context := "key1"; delay := 10000 |}].
Proof.
  apply (handleDidReceiveSettings_restarts_timer sample_parse "key1" new_settings
           one_session key1_instance 0%nat).
  - reflexivity.
  - reflexivity.
  - vm_compute. lia.
Defined.

(** A refresh of the configured session "key1" that fetches the green run shows
    "Loading..." and then "Success". *)
Lemma refreshStatus_two_display_updates_witness :
  sent (step MoreSamples.runs_parse
          (FetchSettled (length (suspended one_session)) (ResponseEnd 200 "runs"))
          (refreshStatus "key1" one_session))
  = sent one_session ++ [setTitle "key1" "Loading..." 0] ++ [setTitle "key1" "Success" 0].
Proof.
  destruct (refreshStatus_two_display_updates MoreSamples.runs_parse "key1" one_session
              key1_instance) as [_ Hsettled]; [reflexivity|discriminate..|].
  destruct (Hsettled (ResponseEnd 200 "runs")) as (result & Hfetch & _ & _ & Hsent).
  rewrite Hsent. vm_compute in Hfetch. injection Hfetch as <-. reflexivity.
Defined.

End PluginFacts.


(** ** Further properties of src/github-api.ts *)

Module FetcherFacts.
Import JS Types GithubApi FetcherViews MoreSamples.
Local Open Scope list_scope.

Lemma mapGitHubStatus_success status conclusion :
  mapGitHubStatus status conclusion = success
  ↔ status = "completed" ∧ conclusion = Some "success".
Proof.
  unfold mapGitHubStatus. split.
  - destruct (String.eqb_spec status "completed") as [->|_].
    + destruct conclusion as [c|]; [|discriminate].
      destruct (String.eqb_spec c "success") as [->|_]; [done|].
      repeat (destruct (String.eqb c _)); discriminate.
    + destruct (_ || _); discriminate.
  - intros [-> ->]. reflexivity.
Qed.

Section Fetcher.

Variable JSON_parse : string -> option GitHubActionsResponse.
Variable https_request : RequestOptions -> HttpOutcome.

(** The two shapes of an answer of [fetchWorkflowStatus]. *)
Lemma fetchWorkflowStatus_cases token owner repo workflow :
  let outcome := https_request (request_options token owner repo workflow) in
  (∃ run, answers_with JSON_parse outcome run ∧
          fetchWorkflowStatus JSON_parse https_request token owner repo workflow
          = inr (from_run run)) ∨
  ((∀ run, ¬ answers_with JSON_parse outcome run) ∧
   ∃ name message,
     fetchWorkflowStatus JSON_parse https_request token owner repo workflow
     = inr {| res_status := unknown; res_name := name;
              res_url := actions_url owner repo; res_branch := "";
              res_updatedAt := None; res_error := Some message |}).
Proof.
  intros outcome. subst outcome. unfold fetchWorkflowStatus, getWorkflowRuns.
  destruct (https_request _) as [statusCode data|m|]; simpl.
  - destruct (Z.eqb_spec statusCode 200) as [->|H200].
    + destruct (JSON_parse data) as [runs|] eqn:Hparse; simpl.
      * destruct (Z.eqb_spec (total_count runs) 0) as [Hcount|Hcount]; simpl.
        { right. split; [|by eauto].
          intros run (d & r & older & [= <-] & Hp & Hc & _). congruence. }
        destruct (workflow_runs runs) as [|run older] eqn:Hruns; simpl.
        { right. split; [|by eauto].
          intros run (d & r & older & [= <-] & Hp & _ & Hr). congruence. }
        left. exists run. split; [|done]. by exists data, runs, older.
      * right. split; [|by eauto].
        intros run (d & r & older & [= <-] & Hp & _). congruence.
    + right. split.
      * intros run (d & r & older & [= -> _] & _). done.
      * destruct (statusCode =? 401); [by eauto|]. destruct (statusCode =? 404); by eauto.
  - right. split; [|by eauto]. intros run (d & r & older & Ho & _). discriminate.
  - right. split; [|by eauto]. intros run (d & r & older & Ho & _). discriminate.
Qed.

(** X1. When the provider answers 200 with a body that parses to a non-zero
    count and a non-empty run list, the result is read off the first run of the
    list alone: its classified status, name, URL and branch, without an error;
    the other runs of the list play no part. *)
Theorem fetchWorkflowStatus_latest_run token owner repo workflow data runs latestRun older :
  https_request (request_options token owner repo workflow) = ResponseEnd 200 data →
  JSON_parse data = Some runs →
  total_count runs ≠ 0 →
  workflow_runs runs = latestRun :: older →
  fetchWorkflowStatus JSON_parse https_request token owner repo workflow
  = inr {| res_status := mapGitHubStatus (run_status latestRun) (conclusion latestRun);
           res_name := run_name latestRun;
           res_url := html_url latestRun;
           res_branch := head_branch latestRun;
           res_updatedAt := None;
           res_error := None |}.
Proof.
  intros Hreq Hparse Hcount Hruns.
  unfold fetchWorkflowStatus, getWorkflowRuns. rewrite Hreq. simpl. rewrite Hparse. simpl.
  rewrite (proj2 (Z.eqb_neq _ _) Hcount), Hruns. reflexivity.
Qed.

(** X2. Whatever the provider answers, the result of [fetchWorkflowStatus]
    carries no last-updated timestamp. *)
Theorem fetchWorkflowStatus_no_timestamp token owner repo workflow result :
  fetchWorkflowStatus JSON_parse https_request token owner repo workflow = inr result →
  res_updatedAt result = None.
Proof.
  intros Hfetch.
  destruct (fetchWorkflowStatus_cases token owner repo workflow)
    as [(run & _ & Hrun)|(_ & name & message & Herr)];
    rewrite Hfetch in *; simplify_eq; reflexivity.
Qed.

(** X3. A result has no error exactly when it was read off a run, that is when
    the provider answered 200 with a body that parses to a non-zero count and a
    non-empty run list; and every result with an error has classification
    [unknown], the URL of the repository's actions page and an empty branch. *)
Theorem fetchWorkflowStatus_error_or_run token owner repo workflow result :
  fetchWorkflowStatus JSON_parse https_request token owner repo workflow = inr result →
  (res_error result = None
   ↔ ∃ run, answers_with JSON_parse
              (https_request (request_options token owner repo workflow)) run) ∧
  (res_error result ≠ None →
   res_status result = unknown ∧
   res_url result = ("https://github.com/" ++ owner ++ "/" ++ repo ++ "/actions")%string ∧
   res_branch result = "").
Proof.
  intros Hfetch.
  destruct (fetchWorkflowStatus_cases token owner repo workflow)
    as [(run & Hans & Hrun)|(Hnone & name & message & Herr)];
    rewrite Hfetch in *; simplify_eq; simpl.
  - split; [|done]. split; [by eauto|done].
  - split; [|done]. split; [done|]. intros [run Hans]. by destruct (Hnone run).
Qed.

(** X4. The classification is [success] exactly when the provider answered 200
    with a body that parses to a non-zero count and a run list whose first run
    has status "completed" and conclusion "success". *)
Theorem fetchWorkflowStatus_success_iff token owner repo workflow result :
  fetchWorkflowStatus JSON_parse https_request token owner repo workflow = inr result →
  (res_status result = success
   ↔ ∃ run, answers_with JSON_parse
              (https_request (request_options token owner repo workflow)) run ∧
            run_status run = "completed" ∧ conclusion run = Some "success").
Proof.
  intros Hfetch.
  destruct (fetchWorkflowStatus_cases token owner repo workflow)
    as [(run & Hans & Hrun)|(Hnone & name & message & Herr)];
    rewrite Hfetch in *; simplify_eq; simpl.
  - rewrite mapGitHubStatus_success. split; [by eauto|].
    intros (run' & (d & r & o & Ho & Hp & _ & Hr) & Hs).
    destruct Hans as (d' & r' & o' & Ho' & Hp' & _ & Hr').
    rewrite Ho in Ho'. injection Ho' as <-. rewrite Hp in Hp'. injection Hp' as <-.
    rewrite Hr in Hr'. by injection Hr' as <- _.
  - split; [done|]. intros (run & Hans & _). by destruct (Hnone run).
Qed.

End Fetcher.

(** The first run of the sample answer is the green one. *)
Lemma fetchWorkflowStatus_latest_run_witness :
  fetchWorkflowStatus runs_parse runs_request "t0ken" "acme" "widgets" None
  = inr {| res_status := success;
           res_name := "CI";
           res_url := "https://github.com/acme/widgets/actions/runs/42";
           res_branch := "main";
           res_updatedAt := None;
           res_error := None |}.
Proof.
  apply (fetchWorkflowStatus_latest_run runs_parse runs_request "t0ken" "acme" "widgets" None
           "runs" {| total_count := 2; workflow_runs := [green_run; red_run] |}
           green_run [red_run]).
  - reflexivity.
  - reflexivity.
  - discriminate.
  - reflexivity.
Defined.

Lemma fetchWorkflowStatus_no_timestamp_witness :
  res_updatedAt (from_run green_run) = None.
Proof.
  apply (fetchWorkflowStatus_no_timestamp runs_parse runs_request "t0ken" "acme" "widgets" None).
  reflexivity.
Defined.

Lemma fetchWorkflowStatus_error_or_run_witness :
  res_error (from_run green_run) = None
  ↔ ∃ run, answers_with runs_parse
             (runs_request (request_options "t0ken" "acme" "widgets" None)) run.
Proof.
  apply (fetchWorkflowStatus_error_or_run runs_parse runs_request "t0ken" "acme" "widgets" None).
  reflexivity.
Defined.

Lemma fetchWorkflowStatus_success_iff_witness :
  res_status (from_run green_run) = success
  ↔ ∃ run, answers_with runs_parse
             (runs_request (request_options "t0ken" "acme" "widgets" None)) run ∧
           run_status run = "completed" ∧ conclusion run = Some "success".
Proof.
  apply (fetchWorkflowStatus_success_iff runs_parse runs_request "t0ken" "acme" "widgets" None).
  reflexivity.
Defined.

End FetcherFacts.


(** ** Further properties of src/plugin.ts *)

Module SessionFacts.
Import JS Types GithubApi Plugin PluginSpec SessionViews Samples MoreSamples.
Local Open Scope list_scope.

(** *** The wire and the request log only grow *)

Lemma trace_extends_refl p : trace_extends p p.
Proof.
  repeat split; try done.
  - exists []. by rewrite app_nil_r.
  - exists []. by rewrite app_nil_r.
Qed.

Lemma trace_extends_trans p q r : trace_extends p q → trace_extends q r → trace_extends p r.
Proof.
  intros (Hw & Hu & Hi & (fs & Hs & Hquiet) & (rs & Hr & Hauth) & He)
         (Hw' & Hu' & Hi' & (fs' & Hs' & Hquiet') & (rs' & Hr' & Hauth') & He').
  split; [congruence|]. split; [congruence|]. split; [congruence|]. split; [|split].
  - exists (fs ++ fs'). split; [by rewrite Hs', Hs, app_assoc|].
    intros Hclosed. rewrite (Hquiet Hclosed). apply Hquiet'.
    unfold is_open in *. by rewrite Hw.
  - exists (rs ++ rs'). split; [by rewrite Hr', Hr, app_assoc|]. by apply Forall_app.
  - congruence.
Qed.

(** A step that touches neither the socket, the wire nor the request log. *)
Lemma trace_extends_same p q :
  websocket q = websocket p → pluginUUID q = pluginUUID p →
  imagesCache q = imagesCache p → sent q = sent p → requests q = requests p →
  registerEvent q = registerEvent p →
  trace_extends p q.
Proof.
  intros Hw Hu Hi Hs Hr He. repeat split; try done.
  - exists []. by rewrite app_nil_r.
  - exists []. by rewrite app_nil_r.
Qed.

Lemma trace_extends_send d p : trace_extends p (send d p).
Proof.
  unfold send. destruct (websocket p) as [[]|] eqn:Hw; try apply trace_extends_refl.
  repeat split; try done.
  - exists [d]. split; [done|]. unfold is_open. by rewrite Hw.
  - exists []. by rewrite app_nil_r.
Qed.

Lemma trace_extends_updateDisplay c st title p :
  trace_extends p (updateDisplay c st title p).
Proof.
  unfold updateDisplay.
  destruct (imagesCache p !! statusKey st) as [image|]; [destruct (truthy image)|];
    try apply trace_extends_send.
  eapply trace_extends_trans; apply trace_extends_send.
Qed.

Lemma trace_extends_refreshStatus c p : trace_extends p (refreshStatus c p).
Proof.
  unfold refreshStatus. destruct (actions p !! c) as [instance|]; [|apply trace_extends_refl].
  simpl. rewrite PluginFacts.missing_settings_guard.
  destruct (decide (configured (settings instance))) as [Hs|Hs].
  - rewrite bool_decide_eq_false_2 by tauto.
    eapply trace_extends_trans; [apply (trace_extends_updateDisplay c pending "Loading...")|].
    repeat split; try done.
    + exists []. by rewrite app_nil_r.
    + eexists. split; [reflexivity|]. apply Forall_singleton. by exists (settings instance).
  - rewrite bool_decide_eq_true_2 by done. apply trace_extends_updateDisplay.
Qed.

Lemma trace_extends_startRefreshTimer c p : trace_extends p (startRefreshTimer c p).
Proof.
  unfold startRefreshTimer. destruct (actions p !! c); [|apply trace_extends_refl].
  by apply trace_extends_same.
Qed.

Lemma trace_extends_stopRefreshTimer c p : trace_extends p (stopRefreshTimer c p).
Proof.
  unfold stopRefreshTimer. destruct (actions p !! c) as [instance|];
    [|apply trace_extends_refl].
  destruct (refreshTimer instance); [|apply trace_extends_refl].
  by apply trace_extends_same.
Qed.

Lemma trace_extends_handleMessage now message p :
  trace_extends p (handleMessage now message p).
Proof.
  destruct message as [c payload|c|c|c|c payload|event]; simpl.
  - unfold handleWillAppear.
    eapply trace_extends_trans; [|apply trace_extends_refreshStatus].
    eapply trace_extends_trans; [|apply trace_extends_startRefreshTimer].
    by apply trace_extends_same.
  - unfold handleWillDisappear. apply trace_extends_same; simpl; try done;
      destruct (actions p !! c) as [instance|]; try done;
      by destruct (refreshTimer instance).
  - unfold handleKeyDown. destruct (actions p !! c); [|apply trace_extends_refl].
    by apply trace_extends_same.
  - unfold handleKeyUp. destruct (actions p !! c) as [instance|]; [|apply trace_extends_refl].
    destruct (_ <=? _).
    + eapply trace_extends_trans; [apply trace_extends_send|]. by apply trace_extends_same.
    + eapply trace_extends_trans; [apply trace_extends_refreshStatus|].
      by apply trace_extends_same.
  - unfold handleDidReceiveSettings.
    destruct (actions p !! c) as [instance|]; [|apply trace_extends_refl].
    eapply trace_extends_trans; [|apply trace_extends_refreshStatus].
    eapply trace_extends_trans; [|apply trace_extends_startRefreshTimer].
    eapply trace_extends_trans; [|apply trace_extends_stopRefreshTimer].
    by apply trace_extends_same.
  - apply trace_extends_refl.
Qed.

Lemma socket_event_cases e : socket_event e ∨ ¬ socket_event e.
Proof. destruct e; simpl; tauto. Qed.

Section Loop.

Variable JSON_parse : string -> option GitHubActionsResponse.

Lemma trace_extends_step e p :
  ¬ socket_event e → trace_extends p (step JSON_parse e p).
Proof.
  destruct e as [ | |now message|h|i o]; simpl; intros Hsocket; try done.
  - apply trace_extends_handleMessage.
  - destruct (list_find _ _) as [[? t]|]; [apply trace_extends_refreshStatus|].
    apply trace_extends_refl.
  - destruct (suspended p !! i) as [k|]; [|apply trace_extends_refl].
    unfold refreshStatus_resume. destruct (fetchWorkflowStatus _ _ _ _ _ _) as [e|result].
    + by apply trace_extends_same.
    + eapply trace_extends_trans; [|apply trace_extends_updateDisplay].
      by apply trace_extends_same.
Qed.

(** X5. While the socket is not open, nothing the plugin handles (a message of
    the host, a timer firing, a fetch that settles) writes a frame: the display
    updates and open-url commands of that time are dropped, not queued. *)
Theorem closed_socket_writes_nothing e p :
  websocket p ≠ Some OPEN →
  ¬ socket_event e →
  sent (step JSON_parse e p) = sent p.
Proof.
  intros Hclosed Hsocket.
  destruct (trace_extends_step e p Hsocket) as (_ & _ & _ & (frames & Hsent & Hquiet) & _).
  rewrite Hsent, Hquiet, app_nil_r; [done|].
  unfold is_open. destruct (websocket p) as [[]|]; done.
Qed.

Lemma registers_first_step uuid event e p :
  pluginUUID p = uuid → registerEvent p = event →
  (sent p = [] ∧ is_open p = false) ∨ (∃ frames, sent p = register event uuid :: frames) →
  pluginUUID (step JSON_parse e p) = uuid ∧
  registerEvent (step JSON_parse e p) = event ∧
  ((sent (step JSON_parse e p) = [] ∧ is_open (step JSON_parse e p) = false) ∨
   (∃ frames, sent (step JSON_parse e p) = register event uuid :: frames)).
Proof.
  intros Hu He Hp.
  destruct (socket_event_cases e) as [Hsocket|Hsocket].
  - destruct e as [ | |now message|h|i o]; try done; simpl.
    + destruct (websocket p) as [[]|] eqn:Hw; try done.
      split; [done|]. split; [done|]. right. unfold send. simpl.
      destruct Hp as [[-> _]|(fs & ->)]; rewrite Hu, He; simpl; eauto.
    + destruct (websocket p) as [w|] eqn:Hw; [|done]. split; [done|]. split; [done|].
      destruct Hp as [[Hs _]|Hp]; [left|right]; done.
  - destruct (trace_extends_step e p Hsocket)
      as (Hw & Hu' & _ & (frames & Hsent & Hquiet) & _ & He').
    split; [congruence|]. split; [congruence|]. destruct Hp as [[Hs Hclosed]|(fs & Hs)].
    + left. rewrite Hsent, Hs, (Hquiet Hclosed). split; [done|].
      unfold is_open in *. by rewrite Hw.
    + right. exists (fs ++ frames). by rewrite Hsent, Hs.
Qed.

(** X6. In every run of a plugin connected with an identity and a registration
    event name, the first frame that reaches the wire is the registration
    [{event: registerEvent, uuid}] with exactly these two values: no display
    update and no open-url command is ever sent before it. *)
Theorem registration_comes_first uuid registerEvent images events :
  registers_first uuid registerEvent
    (run JSON_parse events (connect uuid registerEvent (new_StreamDeckPlugin images))).
Proof.
  assert (∀ p, pluginUUID p = uuid → Plugin.registerEvent p = registerEvent →
               (sent p = [] ∧ is_open p = false) ∨
                 (∃ frames, sent p = register registerEvent uuid :: frames) →
               registers_first uuid registerEvent (run JSON_parse events p)) as Hrun.
  { induction events as [|e events IH]; intros p Hu He Hp.
    - destruct Hp as [[Hs _]|Hp]; [by left|by right].
    - rewrite PluginFacts.run_cons.
      destruct (registers_first_step uuid registerEvent e p Hu He Hp) as (Hu' & He' & Hp').
      by apply IH. }
  apply Hrun; [done|done|]. by left.
Qed.

(** X7. In every run of a connected plugin, each request that was issued was
    built from settings whose credential, owner and repository are all
    non-empty: the plugin never calls the provider for an unconfigured session. *)
Theorem requests_are_authorised uuid registerEvent images events :
  Forall authorised
    (requests (run JSON_parse events (connect uuid registerEvent (new_StreamDeckPlugin images)))).
Proof.
  assert (∀ p, Forall authorised (requests p) →
               Forall authorised (requests (run JSON_parse events p))) as Hrun.
  { induction events as [|e events IH]; intros p Hp; [done|].
    rewrite PluginFacts.run_cons. apply IH.
    destruct (socket_event_cases e) as [Hsocket|Hsocket].
    - destruct e as [ | |now message|h|i o]; try done; simpl.
      + by destruct (websocket p) as [[]|].
      + by destruct (websocket p).
    - destruct (trace_extends_step e p Hsocket) as (_ & _ & _ & _ & (rs & -> & Hrs) & _).
      by apply Forall_app. }
  apply Hrun. constructor.
Qed.

End Loop.

(** *** Single sessions *)

Lemma with_actions_same p : with_actions (actions p) p = p.
Proof. by destruct p. Qed.

Lemma display_frames_frame p q c st title :
  websocket q = websocket p → imagesCache q = imagesCache p →
  display_frames q c st title = display_frames p c st title.
Proof. intros Hw Hi. unfold display_frames, is_open. by rewrite Hw, Hi. Qed.

Lemma handleWillAppear_effect c payload p :
  let s := default getDefaultSettings payload in
  actions (handleWillAppear c payload p)
  = <[c := {| context := c; settings := s;
              refreshTimer := Some (next_handle p); keyDownTime := None |}]> (actions p) ∧
  intervals (handleWillAppear c payload p)
  = intervals p ++ [{| handle := next_handle p; callback_context := c;
                       delay := period_seconds (refreshInterval s) * 1000 |}] ∧
  next_handle (handleWillAppear c payload p) = S (next_handle p).
Proof.
  intros s. unfold handleWillAppear.
  match goal with
  | |- context [refreshStatus c ?q] =>
      destruct (PluginFacts.refreshStatus_frame c q) as (_ & -> & _ & -> & ->)
  end.
  unfold startRefreshTimer. simpl. rewrite lookup_insert_eq. simpl.
  rewrite insert_insert_eq, PluginFacts.js_or_num_period.
  by destruct payload.
Qed.

Lemma filter_issued (l : list Interval) (n : nat) :
  (∀ t, t ∈ l → (handle t < n)%nat) → filter (fun t => handle t ≠ n) l = l.
Proof.
  induction l as [|t l IH]; intros Hl; [done|].
  rewrite filter_cons_True.
  - f_equal. apply IH. intros t' Ht'. apply Hl. by right.
  - pose proof (Hl t (list_elem_of_here _ _)). lia.
Qed.

Section Sessions.

Variable JSON_parse : string -> option GitHubActionsResponse.

(** X8. For a key that has no session, a disappear, press-begin, press-end or
    settings-changed message, a refresh, and the firing of a timer that was
    started for the key all leave the plugin exactly as it was. *)
Theorem no_session_no_effect c p :
  actions p !! c = None →
  (∀ now, handleMessage now (willDisappear c) p = p) ∧
  (∀ now, handleMessage now (keyDown c) p = p) ∧
  (∀ now, handleMessage now (keyUp c) p = p) ∧
  (∀ now s, handleMessage now (didReceiveSettings c s) p = p) ∧
  refreshStatus c p = p ∧
  (∀ h i t,
     list_find (fun t => handle t = h) (intervals p) = Some (i, t) →
     callback_context t = c →
     step JSON_parse (TimerFire h) p = p).
Proof.
  intros Hc.
  assert (refreshStatus c p = p) as Hrefresh by (unfold refreshStatus; by rewrite Hc).
  repeat split.
  - intros now. simpl. unfold handleWillDisappear. rewrite Hc, delete_id by done.
    apply with_actions_same.
  - intros now. simpl. unfold handleKeyDown. by rewrite Hc.
  - intros now. simpl. unfold handleKeyUp. by rewrite Hc.
  - intros now s. simpl. unfold handleDidReceiveSettings. by rewrite Hc.
  - exact Hrefresh.
  - intros h i t Hfind Hctx. simpl. by rewrite Hfind, Hctx.
Qed.

(** X9. When a button appears without settings in the payload, its session gets
    the default settings, a timer with a delay of 60 000 ms is started, no request
    is issued, and the display is updated to [unknown] with title "Configure". *)
Theorem handleWillAppear_without_settings c p :
  let p' := handleWillAppear c None p in
  actions p' !! c
  = Some {| context := c; settings := getDefaultSettings;
            refreshTimer := Some (next_handle p); keyDownTime := None |} ∧
  intervals p'
  = intervals p ++ [{| handle := next_handle p; callback_context := c; delay := 60000 |}] ∧
  requests p' = requests p ∧
  suspended p' = suspended p ∧
  sent p' = sent p ++ display_frames p c unknown "Configure".
Proof.
  intros p'. destruct (handleWillAppear_effect c None p) as (Ha & Hi & _).
  split; [subst p'; rewrite Ha; apply lookup_insert_eq|].
  split; [exact Hi|].
  subst p'. unfold handleWillAppear.
  set (q := startRefreshTimer c _).
  assert (actions q !! c
          = Some {| context := c; settings := getDefaultSettings;
                    refreshTimer := Some (next_handle p); keyDownTime := None |}) as Hq.
  { subst q. unfold startRefreshTimer. simpl. rewrite lookup_insert_eq. simpl.
    apply lookup_insert_eq. }
  assert (¬ configured getDefaultSettings) as Hs by (intros [Ht _]; by apply Ht).
  rewrite (PluginFacts.refreshStatus_unconfigured c q _ Hq Hs).
  destruct (PluginFacts.updateDisplay_frame c unknown "Configure" q)
    as (_ & _ & _ & _ & _ & -> & ->).
  rewrite PluginFacts.updateDisplay_sent.
  subst q. unfold startRefreshTimer. simpl. rewrite lookup_insert_eq. done.
Qed.

(** X10. For a key without a session, and with every live timer under a handle
    the runtime has given out, an appear followed by a disappear restores the
    session map and the table of live timers. *)
Theorem appear_disappear_round_trip c payload p :
  actions p !! c = None →
  (∀ t, t ∈ intervals p → (handle t < next_handle p)%nat) →
  let p' := handleWillDisappear c (handleWillAppear c payload p) in
  actions p' = actions p ∧ intervals p' = intervals p.
Proof.
  intros Hc Hissued p'. subst p'.
  destruct (handleWillAppear_effect c payload p) as (Ha & Hi & _).
  unfold handleWillDisappear. rewrite Ha, lookup_insert_eq. simpl.
  split.
  - rewrite Ha, delete_insert_eq. by apply delete_id.
  - rewrite Hi, filter_app, (filter_issued _ _ Hissued), (filter_singleton _ _ []).
    rewrite decide_False by (intros H; by apply H). apply app_nil_r.
Qed.

(** X11. The result of a fetch is displayed for the key the refresh was started
    for even when that key's session was removed while the fetch was under way:
    the continuation does not look the session up again. *)
Theorem late_result_is_displayed c p instance o :
  actions p !! c = Some instance →
  configured (settings instance) →
  let p1 := handleWillDisappear c (refreshStatus c p) in
  actions p1 !! c = None ∧
  ∃ result,
    fetchWorkflowStatus JSON_parse (fun _ => o)
      (githubToken (settings instance)) (owner (settings instance))
      (repo (settings instance)) (workflow (settings instance)) = inr result ∧
    sent (step JSON_parse (FetchSettled (length (suspended p)) o) p1)
    = sent p1 ++ display_frames p c (res_status result) (result_title result).
Proof.
  intros Hc Hs p1.
  split; [subst p1; unfold handleWillDisappear; simpl; apply lookup_delete_eq|].
  destruct (GithubApiFacts.fetchWorkflowStatus_returns JSON_parse (fun _ => o)
              (githubToken (settings instance)) (owner (settings instance))
              (repo (settings instance)) (workflow (settings instance)))
    as [result Hfetch].
  exists result. split; [exact Hfetch|].
  assert (suspended p1 = suspended p ++ [fetch_pending c (settings instance)]
          ∧ websocket p1 = websocket p ∧ imagesCache p1 = imagesCache p) as (Hsusp & Hw & Hi).
  { subst p1. rewrite (PluginFacts.refreshStatus_configured c p instance Hc Hs).
    destruct (PluginFacts.updateDisplay_frame c pending "Loading..." p)
      as (Hw & Ha & Hi & _).
    unfold handleWillDisappear. simpl. rewrite Ha, Hc.
    destruct (refreshTimer instance); simpl; by rewrite Hw, Hi. }
  clearbody p1. simpl. rewrite Hsusp, list_lookup_middle by done.
  rewrite (PluginFacts.refreshStatus_resume_display JSON_parse
             (fetch_pending c (settings instance)) o _ result Hfetch).
  rewrite PluginFacts.updateDisplay_sent. simpl.
  f_equal. by apply display_frames_frame.
Qed.

(** X12. A message addressed to one key leaves the session of every other key
    as it was. *)
Theorem other_sessions_untouched now message p c' :
  key_of message ≠ Some c' →
  actions (handleMessage now message p) !! c' = actions p !! c'.
Proof.
  intros Hkey.
  assert (∀ c q, c ≠ c' → actions (startRefreshTimer c q) !! c' = actions q !! c') as Hstart.
  { intros c q Hne. unfold startRefreshTimer. destruct (actions q !! c); [|done].
    simpl. by rewrite lookup_insert_ne. }
  assert (∀ c q, c ≠ c' → actions (stopRefreshTimer c q) !! c' = actions q !! c') as Hstop.
  { intros c q Hne. unfold stopRefreshTimer. destruct (actions q !! c) as [i|]; [|done].
    destruct (refreshTimer i); [|done]. simpl. by rewrite lookup_insert_ne. }
  destruct message as [c payload|c|c|c|c payload|event]; simpl in *;
    try (assert (c ≠ c') as Hne by congruence).
  - unfold handleWillAppear.
    rewrite (proj1 (proj2 (PluginFacts.refreshStatus_frame c _))), Hstart by done.
    simpl. by rewrite lookup_insert_ne.
  - unfold handleWillDisappear. simpl. rewrite lookup_delete_ne by done.
    destruct (actions p !! c) as [i|]; [|done]. by destruct (refreshTimer i).
  - unfold handleKeyDown. destruct (actions p !! c); [|done].
    simpl. by rewrite lookup_insert_ne.
  - unfold handleKeyUp. destruct (actions p !! c) as [i|]; [|done].
    simpl. rewrite lookup_insert_ne by done. destruct (_ <=? _).
    + by rewrite (proj1 (proj2 (PluginFacts.openGitHub_frame i p))).
    + by rewrite (proj1 (proj2 (PluginFacts.refreshStatus_frame c p))).
  - unfold handleDidReceiveSettings. destruct (actions p !! c) as [i|]; [|done].
    rewrite (proj1 (proj2 (PluginFacts.refreshStatus_frame c _))), Hstart, Hstop by done.
    simpl. by rewrite lookup_insert_ne.
  - done.
Qed.

(** X13. Of two press-begins without a press-end in between only the later one
    counts: the plugin is as if the first had not happened, so the press-end
    that follows is classified from the later timestamp. *)
Theorem later_keyDown_wins t1 t2 now c p :
  handleKeyDown t2 c (handleKeyDown t1 c p) = handleKeyDown t2 c p ∧
  handleKeyUp now c (handleKeyDown t2 c (handleKeyDown t1 c p))
  = handleKeyUp now c (handleKeyDown t2 c p).
Proof.
  assert (handleKeyDown t2 c (handleKeyDown t1 c p) = handleKeyDown t2 c p) as Hdown.
  { unfold handleKeyDown. destruct (actions p !! c) as [i|] eqn:Hc; simpl.
    - rewrite lookup_insert_eq. simpl. by rewrite insert_insert_eq.
    - by rewrite Hc. }
  by rewrite Hdown.
Qed.

End Sessions.

(** *** The properties on the sample plugin *)

(** Before the socket opens, an appear message writes nothing. *)
Lemma closed_socket_writes_nothing_witness :
  sent (step sample_parse (Receive 0 (willAppear "key1" (Some sample_settings)))
          (connect "com.example.plugin" "registerPlugin" (new_StreamDeckPlugin ∅)))
  = sent (connect "com.example.plugin" "registerPlugin" (new_StreamDeckPlugin ∅)).
Proof.
  apply (closed_socket_writes_nothing sample_parse).
  - discriminate.
  - simpl. tauto.
Defined.

(** No button has appeared yet: a refresh of "key1" changes nothing. *)
Lemma no_session_no_effect_witness : refreshStatus "key1" connected = connected.
Proof.
  apply (no_session_no_effect sample_parse "key1" connected).
  reflexivity.
Defined.

(** "key1" appears on the connected plugin and disappears again. *)
Lemma appear_disappear_round_trip_witness :
  actions (handleWillDisappear "key1" (handleWillAppear "key1" (Some sample_settings) connected))
  = actions connected ∧
  intervals (handleWillDisappear "key1"
               (handleWillAppear "key1" (Some sample_settings) connected))
  = intervals connected.
Proof.
  apply (appear_disappear_round_trip "key1" (Some sample_settings) connected).
  - reflexivity.
  - intros t Ht. apply elem_of_nil in Ht. destruct Ht.
Defined.

(** "key1" disappears while its refresh waits for the provider. *)
Lemma late_result_is_displayed_witness :
  actions (handleWillDisappear "key1" (refreshStatus "key1" one_session)) !! "key1" = None.
Proof.
  apply (late_result_is_displayed sample_parse "key1" one_session key1_instance
           (ResponseEnd 200 "{}")).
  - reflexivity.
  - repeat split; discriminate.
Defined.

(** A press on "key2" leaves the session of "key1" alone. *)
Lemma other_sessions_untouched_witness :
  actions (handleMessage 1000 (keyDown "key2") one_session) !! "key1"
  = actions one_session !! "key1".
Proof.
  apply (other_sessions_untouched 1000 (keyDown "key2") one_session "key1").
  discriminate.
Defined.

(** "key1" appears, disappears and appears again: one timer, one session. *)
Lemma one_timer_per_active_session_witness :
  length (timers_of "key1"
            (run sample_parse
               [Receive 0 (willAppear "key1" (Some sample_settings));
                Receive 5 (willDisappear "key1");
                Receive 9 (willAppear "key1" (Some sample_settings))]
               (connect "com.example.plugin" "registerPlugin" (new_StreamDeckPlugin ∅))))
  = 1%nat.
Proof.
  etransitivity.
  - apply (PluginFacts.one_timer_per_active_session sample_parse
             "com.example.plugin" "registerPlugin" ∅
             [Receive 0 (willAppear "key1" (Some sample_settings));
              Receive 5 (willDisappear "key1");
              Receive 9 (willAppear "key1" (Some sample_settings))] "key1").
    simpl. repeat split; try tauto; intros [i Hi]; vm_compute in Hi; discriminate Hi.
  - reflexivity.
Defined.

End SessionFacts.


(** ** Properties of the construction and the start-up *)

Module BootstrapFacts.
Import JS Types Bootstrap BootstrapViews MoreSamples.
Local Open Scope list_scope.

Section FileSystem.

Variable path_join : string -> string -> string.
Variable dirname : string.
Variable readFileSync : string -> option string.
Variable base64 : string -> string.

(** The cache holds, under the key of a status, the data URI of the file of
    that status when the file could be read, and nothing otherwise. *)
Lemma loadImages_lookup status :
  loadImages path_join dirname readFileSync base64 ∅ !! Plugin.statusKey status
  = (fun svgContent => ("data:image/svg+xml;base64," ++ base64 svgContent)%string)
      <$> readFileSync (svgPath path_join dirname status).
Proof.
  unfold loadImages, statuses. simpl.
  destruct (readFileSync (svgPath path_join dirname success)) eqn:Hs,
    (readFileSync (svgPath path_join dirname failure)) eqn:Hf,
    (readFileSync (svgPath path_join dirname pending)) eqn:Hp,
    (readFileSync (svgPath path_join dirname unknown)) eqn:Hu;
    destruct status; rewrite ?Hs, ?Hf, ?Hp, ?Hu; simpl;
    repeat first [rewrite lookup_insert_eq | rewrite lookup_insert_ne by done];
    by rewrite ?lookup_empty.
Qed.

Section Running.

Variable JSON_parse : string -> option GitHubActionsResponse.

Lemma imagesCache_run events p :
  Plugin.imagesCache (Plugin.run JSON_parse events p) = Plugin.imagesCache p.
Proof.
  revert p. induction events as [|e events IH]; intros p; [done|].
  rewrite PluginFacts.run_cons, IH.
  destruct (SessionFacts.socket_event_cases e) as [Hsocket|Hsocket].
  - destruct e; try done; simpl.
    + by destruct (Plugin.websocket p) as [[]|].
    + by destruct (Plugin.websocket p).
  - by destruct (SessionFacts.trace_extends_step JSON_parse e p Hsocket) as (_ & _ & -> & _).
Qed.

(** X14. In every state a plugin reaches after its construction, a display
    update on the open socket writes the image frame of the status exactly when
    the SVG file of that status could be read at construction, with the data URI
    of its base64 encoding, and then the title frame. *)
Theorem image_sent_iff_file_read uuid registerEvent events c status title :
  let p := Plugin.run JSON_parse events
             (Plugin.connect uuid registerEvent
                (constructor path_join dirname readFileSync base64)) in
  Plugin.websocket p = Some Plugin.OPEN →
  Plugin.sent (Plugin.updateDisplay c status title p)
  = Plugin.sent p
    ++ match readFileSync (svgPath path_join dirname status) with
       | Some svgContent =>
           [Plugin.setImage c ("data:image/svg+xml;base64," ++ base64 svgContent)%string 0]
       | None => []
       end
    ++ [Plugin.setTitle c title 0].
Proof.
  intros p Hopen.
  rewrite PluginFacts.updateDisplay_sent. f_equal.
  unfold PluginSpec.display_frames, PluginSpec.is_open. rewrite Hopen.
  subst p. rewrite imagesCache_run. simpl. rewrite loadImages_lookup.
  by destruct (readFileSync _) as [svgContent|].
Qed.

End Running.

End FileSystem.

Section Arguments.

Variable parseInt : string -> option Z.

Lemma parse_token t tokens rest a :
  well_formed t →
  parse parseInt (spell (t :: tokens) ++ rest) a
  = parse parseInt (spell tokens ++ rest) (assign parseInt t a).
Proof.
  destruct t as [flag value|arg]; cbn [well_formed]; unfold known_flag;
    rewrite !elem_of_cons, elem_of_nil.
  - intros [->|[->|[->|[->|[]]]]]; reflexivity.
  - intros Harg. simpl. rewrite !(proj2 (String.eqb_neq _ _)) by tauto. reflexivity.
Qed.

Lemma parse_tokens tokens rest a :
  Forall well_formed tokens →
  parse parseInt (spell tokens ++ rest) a
  = parse parseInt rest (foldl (fun a t => assign parseInt t a) a tokens).
Proof.
  intros Hwf. revert a. induction Hwf as [|t tokens Ht _ IH]; intros a; [done|].
  rewrite parse_token by done. apply IH.
Qed.

Lemma assign_fields (tokens : list Token) (a : Parsed) :
  let a' := foldl (fun a t => assign parseInt t a) a tokens in
  port a' = match last_value "-port" tokens with
            | Some v => parseInt v
            | None => port a
            end ∧
  pluginUUID a' = match last_value "-pluginUUID" tokens with
                  | Some v => Some v
                  | None => pluginUUID a
                  end ∧
  registerEvent a' = match last_value "-registerEvent" tokens with
                     | Some v => Some v
                     | None => registerEvent a
                     end ∧
  info a' = match last_value "-info" tokens with
            | Some v => Some v
            | None => info a
            end.
Proof.
  revert a. induction tokens as [|t tokens IH]; intros a; [done|].
  simpl. destruct (IH (assign parseInt t a)) as (-> & -> & -> & ->).
  destruct (last_value "-port" tokens), (last_value "-pluginUUID" tokens),
    (last_value "-registerEvent" tokens), (last_value "-info" tokens);
    destruct t as [flag value|arg]; simpl; try done;
    repeat case_decide; subst; simpl; done.
Qed.

Lemma parse_last_value_fields tokens :
  Forall well_formed tokens →
  port (parse parseInt (spell tokens) unset) = last_value "-port" tokens ≫= parseInt ∧
  pluginUUID (parse parseInt (spell tokens) unset) = last_value "-pluginUUID" tokens ∧
  registerEvent (parse parseInt (spell tokens) unset) = last_value "-registerEvent" tokens ∧
  info (parse parseInt (spell tokens) unset) = last_value "-info" tokens.
Proof.
  intros Hwf.
  rewrite <- (app_nil_r (spell tokens)), (parse_tokens tokens [] unset Hwf). simpl.
  destruct (assign_fields tokens unset) as (-> & -> & -> & ->). simpl.
  by destruct (last_value "-port" tokens), (last_value "-pluginUUID" tokens),
    (last_value "-registerEvent" tokens), (last_value "-info" tokens).
Qed.

(** X15. On a command line made of flags of the plugin, each followed by its
    value, and of arguments that are no flags, every setting takes the value
    given with the last occurrence of its flag ([-port] through [parseInt]) and
    stays undefined when its flag does not occur; a value is never read as a
    flag, and the other arguments are skipped. *)
Theorem parse_last_value_wins tokens :
  Forall well_formed tokens →
  let a := parse parseInt (spell tokens) unset in
  port a = last_value "-port" tokens ≫= parseInt ∧
  pluginUUID a = last_value "-pluginUUID" tokens ∧
  registerEvent a = last_value "-registerEvent" tokens ∧
  info a = last_value "-info" tokens.
Proof.
  intros Hwf a. subst a. by apply parse_last_value_fields.
Qed.

Lemma last_value_absent flag tokens :
  flag ∉ omap flag_of tokens → last_value flag tokens = None.
Proof.
  induction tokens as [|t tokens IH]; [done|]. simpl.
  destruct t as [f v|arg]; simpl.
  - rewrite not_elem_of_cons. intros [Hne Hrest]. rewrite (IH Hrest).
    by rewrite decide_False.
  - intros Hrest. by rewrite (IH Hrest).
Qed.

Lemma last_value_unique flag value tokens :
  NoDup (omap flag_of tokens) →
  flag_value flag value ∈ tokens →
  last_value flag tokens = Some value.
Proof.
  induction tokens as [|t tokens IH]; [by rewrite elem_of_nil|].
  simpl. rewrite elem_of_cons. intros Hnodup [<-|Hin].
  - simpl in *. apply NoDup_cons in Hnodup as [Hfresh _].
    rewrite (last_value_absent _ _ Hfresh). by rewrite decide_True.
  - assert (NoDup (omap flag_of tokens)) as Hrest.
    { destruct (flag_of t); [by apply NoDup_cons in Hnodup as [_ ?]|done]. }
    by rewrite (IH Hrest Hin).
Qed.

(** X16. When the command line gives the four flags [-port], [-pluginUUID],
    [-registerEvent] and [-info] once each, every one followed by its value, in
    whatever order, and the port parses to a number other than 0 and the
    identity and the event name are not empty, [main] connects with exactly
    these four values. *)
Theorem main_accepts_any_order node script tokens portText n uuid event infoText :
  tokens ≡ₚ [flag_value "-port" portText; flag_value "-pluginUUID" uuid;
             flag_value "-registerEvent" event; flag_value "-info" infoText] →
  parseInt portText = Some n → n ≠ 0 → uuid ≠ "" → event ≠ "" →
  main parseInt (node :: script :: spell tokens) = connect_with n uuid event infoText.
Proof.
  intros Hperm Hport Hn Huuid Hevent.
  assert (Forall well_formed tokens) as Hwf.
  { rewrite Hperm. repeat constructor; unfold known_flag; simpl;
      rewrite !elem_of_cons; tauto. }
  assert (NoDup (omap flag_of tokens)) as Hnodup.
  { rewrite Hperm. simpl. repeat constructor;
      rewrite ?elem_of_cons, ?elem_of_nil; intuition discriminate. }
  assert (∀ flag value,
            flag_value flag value
            ∈ [flag_value "-port" portText; flag_value "-pluginUUID" uuid;
               flag_value "-registerEvent" event; flag_value "-info" infoText] →
            last_value flag tokens = Some value) as Hlast.
  { intros flag value Hin. apply last_value_unique; [done|]. by rewrite Hperm. }
  unfold main. change (drop 2 (node :: script :: spell tokens)) with (spell tokens).
  cbv zeta.
  destruct (parse_last_value_fields tokens Hwf) as (-> & -> & -> & ->).
  rewrite (Hlast "-port" portText), (Hlast "-pluginUUID" uuid),
    (Hlast "-registerEvent" event), (Hlast "-info" infoText)
    by (rewrite !elem_of_cons; tauto).
  simpl. rewrite Hport.
  rewrite (proj2 (Z.eqb_neq _ _) Hn), !PluginFacts.truthy_nonempty.
  rewrite !bool_decide_eq_true_2 by done. simpl.
  destruct (decide (infoText = "")) as [->|Hinfo]; [done|].
  by rewrite bool_decide_eq_true_2.
Qed.

(** X17. A required flag ([-port], [-pluginUUID] or [-registerEvent]) given as
    the last argument, without a value after it, makes its setting undefined
    whatever was given before, and [main] exits with code 1. *)
Theorem main_rejects_trailing_flag node script tokens flag :
  Forall well_formed tokens →
  flag ∈ ["-port"; "-pluginUUID"; "-registerEvent"] →
  main parseInt (node :: script :: spell tokens ++ [flag]) = exit 1.
Proof.
  intros Hwf Hflag. unfold main.
  change (drop 2 (node :: script :: spell tokens ++ [flag])) with (spell tokens ++ [flag]).
  cbv zeta. rewrite (parse_tokens tokens [flag] unset Hwf).
  set (a := foldl _ _ _).
  rewrite !elem_of_cons, elem_of_nil in Hflag.
  destruct Hflag as [->|[->|[->|[]]]]; simpl.
  - done.
  - by destruct (port a).
  - by destruct (port a), (pluginUUID a).
Qed.

End Arguments.

(** *** The properties on the sample directory and command line *)

(** Only the image of [success] could be read: it is sent before the title. *)
Lemma image_sent_iff_file_read_witness :
  Plugin.sent (Plugin.updateDisplay "key1" success "Success" opened)
  = Plugin.sent opened
    ++ [Plugin.setImage "key1" "data:image/svg+xml;base64,PHN2Zy8+" 0]
    ++ [Plugin.setTitle "key1" "Success" 0].
Proof.
  apply (image_sent_iff_file_read sample_join "/plugin" sample_readFileSync sample_base64
           Samples.sample_parse "com.example.plugin" "registerPlugin"
           [Plugin.SocketOpen] "key1" success "Success").
  reflexivity.
Defined.

(** The port is given twice: the second value counts. *)
Lemma parse_last_value_wins_witness :
  port (parse sample_parseInt ["-port"; "1"; "-info"; "-port"; "-port"; "28196"] unset)
  = Some 28196.
Proof.
  apply (parse_last_value_wins sample_parseInt
           [flag_value "-port" "1"; flag_value "-info" "-port"; flag_value "-port" "28196"]).
  repeat constructor.
Defined.

(** The identity is given before the port. *)
Lemma main_accepts_any_order_witness :
  main sample_parseInt
    ["node"; "plugin.js"; "-pluginUUID"; "ABC"; "-port"; "28196";
     "-registerEvent"; "registerPlugin"; "-info"; "{}"]
  = connect_with 28196 "ABC" "registerPlugin" "{}".
Proof.
  apply (main_accepts_any_order sample_parseInt "node" "plugin.js"
           [flag_value "-pluginUUID" "ABC"; flag_value "-port" "28196";
            flag_value "-registerEvent" "registerPlugin"; flag_value "-info" "{}"]
           "28196" 28196 "ABC" "registerPlugin" "{}").
  - apply Permutation_swap.
  - reflexivity.
  - lia.
  - discriminate.
  - discriminate.
Defined.

(** A complete command line followed by a lone [-port]. *)
Lemma main_rejects_trailing_flag_witness :
  main sample_parseInt
    ["node"; "plugin.js"; "-port"; "28196"; "-pluginUUID"; "ABC";
     "-registerEvent"; "registerPlugin"; "-port"]
  = exit 1.
Proof.
  apply (main_rejects_trailing_flag sample_parseInt "node" "plugin.js"
           [flag_value "-port" "28196"; flag_value "-pluginUUID" "ABC";
            flag_value "-registerEvent" "registerPlugin"] "-port").
  - repeat constructor.
  - repeat constructor.
Defined.

End BootstrapFacts.


(** ** Properties of the rendered timestamp *)

Module RenderingFacts.
Import JS Rendering BootstrapViews MoreSamples.
Local Open Scope string_scope.

Lemma length_append (a b : string) :
  String.length (a ++ b) = (String.length a + String.length b)%nat.
Proof.
  induction a as [|ch a IH]; [reflexivity|].
  change (S (String.length (a ++ b)) = S (String.length a + String.length b)).
  by rewrite IH.
Qed.

Lemma length_repeat_string n s :
  (n * String.length s ≤ String.length (repeat_string n s))%nat.
Proof.
  induction n as [|n IH]; [simpl; lia|].
  change (repeat_string (S n) s) with (s ++ repeat_string n s).
  rewrite length_append. lia.
Qed.

Lemma length_substring n s :
  (n ≤ String.length s)%nat → String.length (String.substring 0 n s) = n.
Proof.
  revert s. induction n as [|n IH]; intros s Hn.
  - by destruct s.
  - destruct s as [|ch s]; [simpl in Hn; lia|].
    simpl. rewrite IH; [done|]. simpl in Hn. lia.
Qed.

(** Padding with a non-empty pad string never shortens or changes the
    text: the result is the text preceded by a fill of exactly the missing
    length, so its length is the larger of the target and the length of the
    text; with an empty pad string the text is returned as it is. *)
Lemma padStart_length targetLength padString s :
  (padString ≠ "" →
   ∃ fill, padStart targetLength padString s = fill ++ s ∧
           String.length fill = (targetLength - String.length s)%nat ∧
           String.length (padStart targetLength padString s)
           = Nat.max targetLength (String.length s)) ∧
  padStart targetLength "" s = s.
Proof.
  split.
  - intros Hpad. unfold padStart.
    destruct (Nat.leb_spec targetLength (String.length s)) as [Hle|Hlt].
    + exists "". repeat split; simpl; lia.
    + rewrite (proj2 (String.eqb_neq _ _) Hpad).
      assert (String.length
                (String.substring 0 (targetLength - String.length s)
                   (repeat_string (targetLength - String.length s) padString))
              = (targetLength - String.length s)%nat) as Hfill.
      { apply length_substring.
        pose proof (length_repeat_string (targetLength - String.length s) padString).
        assert (1 ≤ String.length padString)%nat; [|nia].
        destruct padString; [done|simpl; lia]. }
      eexists. split; [reflexivity|]. split; [exact Hfill|].
      rewrite length_append, Hfill. lia.
  - unfold padStart. by destruct (_ <=? _)%nat.
Qed.

Lemma two_digits_check :
  forallb (fun k => String.eqb (padStart 2 "0" (toString (Z.of_nat k)))
                      (two_digits (Z.of_nat k)))
    (seq 0 100) = true.
Proof. vm_compute. reflexivity. Qed.

Lemma padStart_two_digits n :
  0 ≤ n < 100 → padStart 2 "0" (toString n) = two_digits n.
Proof.
  intros Hn. pose proof two_digits_check as Hall.
  rewrite forallb_forall in Hall.
  specialize (Hall (Z.to_nat n)). rewrite Z2Nat.id in Hall by lia.
  apply String.eqb_eq, Hall, in_seq. lia.
Qed.

Section WithDate.

Variable Date_new : string -> option DateParts.

(** X18. For a non-empty date text: when it is a valid date, the timestamp is
    the day, the month counted from 1, the hours and the minutes, each as two
    digits, in the shape "DD/MM HH:MM" of eleven characters; when it is not a
    date, the timestamp is the text "NaN/NaN NaN:NaN". *)
Theorem dateDisplay_format dateStr :
  dateStr ≠ "" →
  (∀ date,
     Date_new dateStr = Some date →
     (1 ≤ getDate date ≤ 31)%Z → (0 ≤ getMonth date ≤ 11)%Z →
     (0 ≤ getHours date ≤ 23)%Z → (0 ≤ getMinutes date ≤ 59)%Z →
     dateDisplay Date_new (Some dateStr)
     = two_digits (getDate date) ++ "/" ++ two_digits (getMonth date + 1) ++ " "
       ++ two_digits (getHours date) ++ ":" ++ two_digits (getMinutes date) ∧
     String.length (dateDisplay Date_new (Some dateStr)) = 11%nat) ∧
  (Date_new dateStr = None →
   dateDisplay Date_new (Some dateStr) = "NaN/NaN NaN:NaN").
Proof.
  intros Hstr.
  assert (truthy dateStr = true) as Htruthy.
  { rewrite PluginFacts.truthy_nonempty. by apply bool_decide_eq_true_2. }
  split.
  - intros date Hdate Hd Hm Hh Hmi.
    assert (dateDisplay Date_new (Some dateStr)
            = two_digits (getDate date) ++ "/" ++ two_digits (getMonth date + 1) ++ " "
              ++ two_digits (getHours date) ++ ":" ++ two_digits (getMinutes date)) as Heq.
    { unfold dateDisplay. rewrite Htruthy, Hdate. simpl.
      by rewrite !padStart_two_digits by lia. }
    split; [exact Heq|]. rewrite Heq. reflexivity.
  - intros Hdate. unfold dateDisplay. rewrite Htruthy, Hdate. reflexivity.
Qed.

End WithDate.

(** The first of May at 9:05 reads "01/05 09:05". *)
Lemma dateDisplay_format_witness :
  dateDisplay sample_Date (Some "2024-05-01T09:05:00Z") = "01/05 09:05".
Proof.
  destruct (dateDisplay_format sample_Date "2024-05-01T09:05:00Z") as [Hvalid _];
    [discriminate|].
  apply (Hvalid {| getDate := 1; getMonth := 4; getHours := 9; getMinutes := 5 |});
    [reflexivity|simpl; lia..].
Defined.

End RenderingFacts.
